(** * Lidar-Annotation-is-All-You-Need: training script and configuration

    A shallow embedding of [lib/config/waymo.py] (the default configuration
    tree [_C] and [update_config]) and of [scripts/train.py] (dataset-type
    dispatch, the fraction mixer, the cosine schedule factor and the epoch
    loop with its checkpoint cadence), with the properties the specification
    states about them.

    Conventions.
    - Python [int] is [Z].  In the model of a whole run a Python [float] is
      an exact rational ([Qc]), and what is proved of it is stated for
      inputs on which it holds of the double computation as well.  The
      fraction mixer is also given in double precision ([Float64],
      [mixer64]): a finite double is the rational it denotes and every
      operation rounds to nearest, ties to even.  The cosine factor, which
      needs [math.cos], is stated over [R].
    - A raised exception is the [Raise] branch of [Result].
    - Collaborators whose code lives in other modules of the repository
      ([train], [get_optimizer], the dataset classes, the data loader,
      [create_logger], the KITTI-360 configuration) are the fields of the
      class [Collaborators]; [validate] and the loggers only observe. *)

From Stdlib Require Import ZArith QArith Qcanon Qround Qpower Lia Lqa List Ascii Reals Lra.
From Stdlib Require Floats.
From stdpp Require Import base option strings pretty list gmap.

Close Scope R_scope.
Open Scope Z_scope.

(** ** Python values and exceptions *)

Inductive PyError : Type :=
| ValueError (msg : string)
| IndexError
| KeyError (key : string)
| AttributeError (name : string)
| TypeError
| ZeroDivisionError
| OverflowError
| FileNotFoundError (path : string).

Inductive Result (A : Type) : Type :=
| Ok (a : A)
| Raise (e : PyError).
Arguments Ok {A} a.
Arguments Raise {A} e.

#[export] Instance Result_ret : MRet Result := fun _ a => Ok a.
#[export] Instance Result_bind : MBind Result := fun _ _ f m =>
  match m with
  | Ok a => f a
  | Raise e => Raise e
  end.

Definition is_ok {A} (r : Result A) : bool :=
  match r with Ok _ => true | Raise _ => false end.

(** Truthiness of a [str]: the empty string is falsy. *)
Definition str_truthy (s : string) : bool :=
  match s with EmptyString => false | String _ _ => true end.

(** A float literal [n / d]. *)
Definition fl (n : Z) (d : positive) : Qc := Q2Qc (n # d).

(** [int(x)] on a float truncates toward zero. *)
Definition py_int (x : Qc) : Z := Z.quot (Qnum x) (Zpos (Qden x)).

(** [round(x)] on a float: nearest integer, ties to the even one. *)
Definition py_round (x : Qc) : Z :=
  let f := Qfloor x in
  let twice_frac := 2 * (Qnum x - f * Zpos (Qden x)) in
  match Z.compare twice_frac (Zpos (Qden x)) with
  | Lt => f
  | Gt => f + 1
  | Eq => if Z.even f then f else f + 1
  end.

(** [range(a, b)] *)
Definition py_range (a b : Z) : list Z :=
  List.map (fun i => a + Z.of_nat i) (seq 0 (Z.to_nat (b - a))).

(** ** [lib/config/waymo.py]: the configuration tree *)

Module Config.

(** Leaf values a [CfgNode] may hold. *)
Inductive Scalar : Type :=
| SNone
| SBool (b : bool)
| SInt (z : Z)
| SFloat (q : Qc)
| SStr (s : string).

(** A [CfgNode] is a dict with two flags: [new_allowed], given to the
    constructor, and the immutability flag toggled by [freeze] and
    [defrost].  Entries are kept in insertion order. *)
Inductive CfgNode : Type :=
| CN_ (new_allowed : bool) (immutable : bool) (entries : Entries)
with Entries : Type :=
| ENil
| ECons (k : string) (v : CfgValue) (rest : Entries)
with CfgValue : Type :=
| VScalar (s : Scalar)
| VList (l : list Scalar)
| VNode (n : CfgNode).

Scheme CfgNode_mut := Induction for CfgNode Sort Prop
  with Entries_mut := Induction for Entries Sort Prop
  with CfgValue_mut := Induction for CfgValue Sort Prop.
Combined Scheme Cfg_mutind from CfgNode_mut, Entries_mut, CfgValue_mut.

Definition new_allowed (n : CfgNode) : bool := let '(CN_ a _ _) := n in a.
Definition immutable (n : CfgNode) : bool := let '(CN_ _ i _) := n in i.
Definition entries (n : CfgNode) : Entries := let '(CN_ _ _ es) := n in es.

Fixpoint mk_entries (l : list (string * CfgValue)) : Entries :=
  match l with
  | [] => ENil
  | (k, v) :: l' => ECons k v (mk_entries l')
  end.

(** [CN(...)] followed by the assignments that fill the node. *)
Definition CN (allowed : bool) (l : list (string * CfgValue)) : CfgValue :=
  VNode (CN_ allowed false (mk_entries l)).

Fixpoint assoc_get (k : string) (es : Entries) : option CfgValue :=
  match es with
  | ENil => None
  | ECons k' v rest => if decide (k' = k) then Some v else assoc_get k rest
  end.

(** [d[k] = v] on a dict: overwrite in place, or append a new key. *)
Fixpoint assoc_set (k : string) (v : CfgValue) (es : Entries) : Entries :=
  match es with
  | ENil => ECons k v ENil
  | ECons k' v' rest =>
      if decide (k' = k) then ECons k v rest else ECons k' v' (assoc_set k v rest)
  end.


(** [node.k = v]: refused on a frozen node. *)
Definition setattr (n : CfgNode) (k : string) (v : CfgValue) : Result CfgNode :=
  if immutable n then Raise (AttributeError k)
  else Ok (CN_ (new_allowed n) (immutable n) (assoc_set k v (entries n))).

(** [_immutable(flag)]: sets the flag on the node and on every nested node. *)
Fixpoint set_immutable (flag : bool) (n : CfgNode) : CfgNode :=
  match n with
  | CN_ a _ es => CN_ a flag (set_immutable_entries flag es)
  end
with set_immutable_entries (flag : bool) (es : Entries) : Entries :=
  match es with
  | ENil => ENil
  | ECons k v rest =>
      ECons k (set_immutable_value flag v) (set_immutable_entries flag rest)
  end
with set_immutable_value (flag : bool) (v : CfgValue) : CfgValue :=
  match v with
  | VNode n => VNode (set_immutable flag n)
  | _ => v
  end.

Definition defrost : CfgNode -> CfgNode := set_immutable false.
Definition freeze : CfgNode -> CfgNode := set_immutable true.

(** Lookup along a dotted path, [cfg.A.B]. *)
Fixpoint lookup_value (path : list string) (v : CfgValue) : option CfgValue :=
  match path with
  | [] => Some v
  | k :: rest =>
      match v with
      | VNode n =>
          match assoc_get k (entries n) with
          | Some v' => lookup_value rest v'
          | None => None
          end
      | _ => None
      end
  end.

Definition lookup_path (path : list string) (n : CfgNode) : option CfgValue :=
  lookup_value path (VNode n).

(** What a value holds apart from being frozen or not: every immutability
    flag is erased. *)
Definition content (v : CfgValue) : CfgValue := set_immutable_value false v.

Definition VStr (s : string) : CfgValue := VScalar (SStr s).
Definition VInt (z : Z) : CfgValue := VScalar (SInt z).
Definition VBool (b : bool) : CfgValue := VScalar (SBool b).
Definition VFloat (n : Z) (d : positive) : CfgValue := VScalar (SFloat (fl n d)).

(** The default tree [_C], after the module's assignments have run. *)
Definition _C : CfgNode :=
  CN_ false false (mk_entries [
    ("LOG_DIR", VStr "runs/");
    ("GPUS", VList [SInt 0]);
    ("WORKERS", VInt 4);
    ("PIN_MEMORY", VBool false);
    ("PRINT_FREQ", VInt 20);
    ("DEBUG", VBool false);
    ("DEBUG_N_BATCHES", VInt 0);
    ("CLEARML_LOGGING", VBool false);
    ("num_seg_class", VInt 2);
    ("CUDNN", CN false [
      ("BENCHMARK", VBool true);
      ("DETERMINISTIC", VBool false);
      ("ENABLED", VBool true)]);
    ("MODEL", CN true [
      ("NAME", VStr "");
      ("IMAGE_SIZE", VList [SInt 640; SInt 640]);
      ("SEGM_CLASSES", VStr "road")]);
    ("LOSS", CN true [
      ("LAMBDA", VFloat 1 1);
      ("SEG_POS_WEIGHT", VFloat 1 1);
      ("DA_SEG_GAIN", VFloat 1 1);
      ("MASKED", VBool true)]);
    ("DATASET", CN true [
      ("DATASET", VStr "waymo_PSPNET_exps");
      ("PATH", VStr "/mnt/large/data/waymo_2d_3d_segm");
      ("VAL_PATH", VStr "/mnt/large/data/waymo_2d_3d_segm");
      ("DATASETS_FRACTIONS", VList [SFloat (fl 1 1); SFloat (fl 1 1)]);
      ("DATA_FORMAT", VStr "jpg");
      ("AUTO_SHAPE", VBool false);
      ("FILL_BETWEEN_POINTS", VBool false);
      ("USE_DET_CACHE", VBool true);
      ("WAYMO_DILATION", VBool false);
      ("MASKS_ONLY", VBool false);
      ("LIDAR_DATA_ONLY", VBool false);
      ("from_img_3D", VInt 0);
      ("to_img_3D", VInt 926);
      ("from_img_2D", VInt 926);
      ("to_img_2D", VInt 1852);
      ("FLIP", VBool true);
      ("SCALE_FACTOR", VFloat 1 4);
      ("ROT_FACTOR", VInt 10);
      ("TRANSLATE", VFloat 1 10);
      ("SHEAR", VFloat 0 1);
      ("COLOR_RGB", VBool false);
      ("HSV_H", VFloat 15 1000);
      ("HSV_S", VFloat 7 10);
      ("HSV_V", VFloat 4 10)]);
    ("TRAIN", CN true [
      ("LR0", VFloat 1 1000);
      ("LRF", VFloat 1 2);
      ("WARMUP_EPOCHS", VFloat 3 1);
      ("WARMUP_BIASE_LR", VFloat 1 10);
      ("WARMUP_MOMENTUM", VFloat 8 10);
      ("OPTIMIZER", VStr "adam");
      ("MOMENTUM", VFloat 937 1000);
      ("WD", VFloat 5 10000);
      ("NESTEROV", VBool true);
      ("GAMMA1", VFloat 99 100);
      ("GAMMA2", VFloat 0 1);
      ("BEGIN_EPOCH", VInt 0);
      ("END_EPOCH", VInt 200);
      ("VAL_FREQ", VInt 1);
      ("BATCH_SIZE", VInt 6);
      ("SHUFFLE", VBool true);
      ("SAVE_LOCALLY_PER_BATCH", VBool true)]);
    ("TEST", CN true [
      ("BATCH_SIZE", VInt 1);
      ("PLOTS", VBool true)]);
    ("inference_visualization", VBool false);
    ("save_video", VBool false);
    ("save_gt", VBool false);
    ("vis_train_gt", VBool true)]).

(** *** Loading a configuration

    [CN(new_allowed=True)] is the only mark a group carries in
    [lib/config/waymo.py].  Nothing in [lib/config/waymo.py] or
    [scripts/train.py] loads a configuration: [main] only calls
    [update_config]. *)

(** [b[k] = v] *)
Definition setitem (b : CfgNode) (k : string) (v : CfgValue) : CfgNode :=
  CN_ (new_allowed b) (immutable b) (assoc_set k v (entries b)).



(** [cfg.g.k = v] on a tree that is not frozen. *)
Definition with_entry (g k : string) (v : CfgValue) (cfg : CfgNode) : CfgNode :=
  match assoc_get g (entries cfg) with
  | Some (VNode n) => setitem cfg g (VNode (setitem n k v))
  | _ => cfg
  end.

(** Every node of the tree, at any depth, carries the given immutability
    flag. *)
Fixpoint all_immutable (flag : bool) (n : CfgNode) : bool :=
  match n with
  | CN_ _ i es => bool_decide (i = flag) && all_immutable_entries flag es
  end
with all_immutable_entries (flag : bool) (es : Entries) : bool :=
  match es with
  | ENil => true
  | ECons _ v rest =>
      all_immutable_value flag v && all_immutable_entries flag rest
  end
with all_immutable_value (flag : bool) (v : CfgValue) : bool :=
  match v with
  | VNode n => all_immutable flag n
  | _ => true
  end.

(** The command line of [scripts/train.py], as [parse_args] returns it. *)
Record Args : Type := {
  logDir : string;
  load_from : option string;
  dataset_type : string
}.

(** Defaults of [parse_args]. *)
Definition default_args : Args :=
  {| logDir := "runs/"; load_from := None; dataset_type := "waymo" |}.

(** [update_config(cfg, args)] *)
Definition update_config (cfg : CfgNode) (args : Args) : Result CfgNode :=
  let cfg := defrost cfg in
  cfg ← (if str_truthy (logDir args)
         then setattr cfg "LOG_DIR" (VStr (logDir args))
         else Ok cfg);
  Ok (freeze cfg).

End Config.

(** ** The cosine schedule factor (lines 106-108 of [scripts/train.py]) *)

Module Schedule.
Local Open Scope R_scope.

(** [lf = lambda x: ((1 + math.cos(x * math.pi / END_EPOCH)) / 2) *
    (1 - LRF) + LRF], over the reals. *)
Definition lf (end_epoch lrf x : R) : R :=
  ((1 + cos (x * PI / end_epoch)) / 2) * (1 - lrf) + lrf.

(** [LambdaLR] sets the learning rate to the optimizer's initial rate times
    [lf(last_epoch)]. *)
Definition lr (lr0 end_epoch lrf : R) (epoch : Z) : R :=
  lr0 * lf end_epoch lrf (IZR epoch).

End Schedule.

(** ** [scripts/train.py] *)

Module Train.
Import Config.

(** *** Reading configuration values *)

(** [cfg.A.B]: a missing attribute raises. *)
Definition read (cfg : CfgNode) (path : list string) : Result CfgValue :=
  match lookup_path path cfg with
  | Some v => Ok v
  | None => Raise (AttributeError (String.concat "." path))
  end.

(** Truth value of a configuration value, as [if v:] tests it. *)
Definition truthy (v : CfgValue) : bool :=
  match v with
  | VScalar SNone => false
  | VScalar (SBool b) => b
  | VScalar (SInt z) => negb (z =? 0)
  | VScalar (SFloat q) => negb (Qnum q =? 0)
  | VScalar (SStr s) => str_truthy s
  | VList l => match l with [] => false | _ => true end
  | VNode n => match entries n with ENil => false | _ => true end
  end.

(** A value used as a number ([bool] is a subtype of [int]). *)
Definition scalar_num (s : Scalar) : Result Qc :=
  match s with
  | SBool b => Ok (Qc_of_Z (Z.b2z b))
  | SInt z => Ok (Qc_of_Z z)
  | SFloat q => Ok q
  | _ => Raise TypeError
  end.

Definition as_num (v : CfgValue) : Result Qc :=
  match v with
  | VScalar s => scalar_num s
  | _ => Raise TypeError
  end.

(** A value used where an [int] is required ([range]). *)
Definition as_int (v : CfgValue) : Result Z :=
  match v with
  | VScalar (SInt z) => Ok z
  | VScalar (SBool b) => Ok (Z.b2z b)
  | _ => Raise TypeError
  end.

(** [v[i]] on a list value. *)
Definition index (v : CfgValue) (i : nat) : Result Scalar :=
  match v with
  | VList l => match l !! i with Some s => Ok s | None => Raise IndexError end
  | _ => Raise TypeError
  end.

(** [epoch == v] for an [int] epoch. *)
Definition eq_int (epoch : Z) (v : CfgValue) : bool :=
  match v with
  | VScalar (SInt z) => bool_decide (epoch = z)
  | VScalar (SBool b) => bool_decide (epoch = Z.b2z b)
  | VScalar (SFloat q) => bool_decide (Qc_of_Z epoch = q)
  | _ => false
  end.

(** [a % b] for an [int] [a] and a number [b]: [a - b * floor(a / b)]. *)
Definition num_mod (a : Z) (b : Qc) : Result Qc :=
  if decide (b = 0%Qc) then Raise ZeroDivisionError
  else
    let a' := Qc_of_Z a in
    Ok (a' - b * Qc_of_Z (Qfloor (a' / b)))%Qc.

(** *** The fraction mixer *)

Inductive DatasetKind : Type := SegmDataset2D | SegmDataset3D.

(** A constructed training dataset: its class, the image window it was
    given ([from_img], [to_img]), the [name] attribute set by [main] and its
    [len]. *)
Record Dataset : Type := {
  ds_kind : DatasetKind;
  ds_window : option (CfgValue * CfgValue);
  ds_name : string;
  ds_len : N
}.

(** An entry of a float array, as numpy's division produces it. *)
Inductive NpFloat : Type :=
| Finite (q : Qc)
| NaN
| Inf (negative : bool).

(** [n / d] for integers under numpy: a zero divisor gives [nan] or a signed
    infinity together with a warning, not an exception. *)
Definition np_div (n d : Z) : NpFloat :=
  if decide (d = 0) then
    (if decide (n = 0) then NaN else Inf (bool_decide (n < 0)))
  else Finite (Qc_of_Z n / Qc_of_Z d)%Qc.

Definition np_add (x y : NpFloat) : NpFloat :=
  match x, y with
  | NaN, _ | _, NaN => NaN
  | Inf a, Inf b => if decide (a = b) then Inf a else NaN
  | Inf a, Finite _ | Finite _, Inf a => Inf a
  | Finite p, Finite q => Finite (p + q)%Qc
  end.

Definition np_sum (l : list NpFloat) : NpFloat :=
  fold_left np_add l (Finite (0%Qc)).

Record Mix : Type := {
  dataset_samples_list : list Z;
  num_samples : Z;
  weights : list NpFloat
}.

(** The loop over [enumerate(datasets)]: [acc] is the pair
    [(dataset_samples_list, num_samples)]. *)
Fixpoint mixer_loop (datasets_fractions : CfgValue) (dataset_index : nat)
  (datasets : list Dataset) (acc : list Z * Z) : Result (list Z * Z) :=
  match datasets with
  | [] => Ok acc
  | dataset_ :: rest =>
      datasets_fraction ← index datasets_fractions dataset_index ≫= scalar_num;
      let dataset_samples :=
        py_int (datasets_fraction * Qc_of_Z (Z.of_N (ds_len dataset_)))%Qc in
      mixer_loop datasets_fractions (S dataset_index) rest
        (acc.1 ++ [dataset_samples], acc.2 + dataset_samples)
  end.

Definition mixer (datasets : list Dataset) (datasets_fractions : CfgValue)
  : Result Mix :=
  '(samples, total) ← mixer_loop datasets_fractions 0 datasets ([], 0);
  Ok {| dataset_samples_list := samples;
        num_samples := total;
        weights := List.map (fun n => np_div n total) samples |}.

(** The total of a list of budgets. *)
Definition sumZ (l : list Z) : Z := foldr Z.add 0 l.

(** The budget as the source computes it, [int(f * len)]. *)
Definition int_budget (f : Qc) (d : Dataset) : Z :=
  py_int (f * Qc_of_Z (Z.of_N (ds_len d)))%Qc.

(** The budget as the specification writes it, [floor(f * len)]. *)
Definition floor_budget (f : Qc) (d : Dataset) : Z :=
  Qfloor (f * Qc_of_Z (Z.of_N (ds_len d)))%Qc.

Definition mix_of (budgets : list Z) : Mix :=
  {| dataset_samples_list := budgets;
     num_samples := sumZ budgets;
     weights := (λ n_i, np_div n_i (sumZ budgets)) <$> budgets |}.

(** A dataset of a given length. *)
Definition a_dataset (len : N) : Dataset :=
  {| ds_kind := SegmDataset2D; ds_window := None;
     ds_name := "Segmentation 2D"; ds_len := len |}.

(** *** The mixer in double precision

    Line 184 multiplies a [float] by an [int] and line 193 divides integers
    under numpy: both round to the nearest double.  The definitions above
    compute with the exact rationals; the ones below round as the code
    does, and are the ones the claim about budgets and weights is settled
    against. *)

Module Float64.

(** [2^e] *)
Definition pow2 (e : Z) : Qc := Q2Qc (2 ^ e)%Q.

Definition abs (q : Qc) : Qc := if decide (0 ≤ q)%Qc then q else (- q)%Qc.

(** [floor(log2(q))] for a positive [q]. *)
Definition floor_log2 (q : Qc) : Z :=
  let s := Z.log2 (Zpos (Qden q)) + 1 in
  Z.log2 (Qnum q * 2 ^ s / Zpos (Qden q)) - s.

(** The exponent of the last binary place a double near [q] has: 52 places
    below the leading one, and never below [2^-1074], the smallest
    subnormal. *)
Definition last_place (q : Qc) : Z := Z.max (floor_log2 (abs q) - 52) (-1074).

(** The multiple of [2^last_place] nearest to [q], ties going to the even
    multiple. *)
Definition nearest (q : Qc) : Qc :=
  let e := last_place q in
  (Qc_of_Z (py_round (q / pow2 e)) * pow2 e)%Qc.

(** Rounding to binary64, to nearest with ties to even: a result of
    magnitude [2^1024] or more is an infinity.  The two zeros are not told
    apart. *)
Definition round (q : Qc) : NpFloat :=
  if decide (q = 0%Qc) then Finite 0%Qc
  else if decide (pow2 1024 ≤ abs (nearest q))%Qc then Inf (bool_decide (q < 0)%Qc)
  else Finite (nearest q).


(** [x * y] on floats; it never raises. *)
Definition mul (x y : NpFloat) : NpFloat :=
  match x, y with
  | NaN, _ | _, NaN => NaN
  | Finite a, Finite b => round (a * b)
  | Inf s, Finite b | Finite b, Inf s =>
      if decide (b = 0%Qc) then NaN else Inf (xorb s (bool_decide (b < 0)%Qc))
  | Inf s, Inf t => Inf (xorb s t)
  end.




(** [n / d] on entries of [int64] arrays: both are converted to double and
    divided; a zero divisor gives [nan] or an infinity with a warning. *)
Definition true_divide (n d : Z) : NpFloat :=
  if decide (d = 0) then
    (if decide (n = 0) then NaN else Inf (bool_decide (n < 0)))
  else
    match round (Qc_of_Z n), round (Qc_of_Z d) with
    | Finite x, Finite y => round (x / y)
    | _, _ => NaN
    end.

(** The rational a double of the kernel denotes, to compare [round] with
    the machine's arithmetic. *)
Definition of_float (x : PrimFloat.float) : NpFloat :=
  match FloatOps.Prim2SF x with
  | SpecFloat.S754_zero _ => Finite 0%Qc
  | SpecFloat.S754_infinity negative => Inf negative
  | SpecFloat.S754_nan => NaN
  | SpecFloat.S754_finite negative m e =>
      Finite ((if negative then -1 else 1) * Qc_of_Z (Zpos m) * pow2 e)%Qc
  end.

End Float64.

Section DoubleMixer.

(** [int(s * n)] for a [str] fraction [s]: [s] repeated [n] times, read as
    an integer literal.  How Python reads integer literals is not modelled,
    and is taken as given. *)
Variable int_of_repeated : string → Z → Result Z.

(** [np.array(l) / n] when an entry of [l], or [n], does not fit [int64]:
    numpy then builds no [int64] array, and what it does instead differs
    between its versions.  Taken as given. *)
Variable divide_outside_int64 : list Z → Z → Result (list NpFloat).






End DoubleMixer.

(** *** Artifacts, events and the run monad *)

Record WriterDict : Type := {
  train_global_steps : Z;
  valid_global_steps : Z
}.

Section Run.

Context {Params OptState : Type}.

(** Modelled from the spec: the object [save_checkpoint] (in
    [lib/utils/utils.py]) persists, with the fields [epoch], [model_name],
    [state_dict] and [optimizer]. *)
Record Checkpoint : Type := {
  ck_epoch : Z;
  ck_model_name : CfgValue;
  ck_state_dict : Params;
  ck_optimizer : OptState
}.

(** What a [.pth] file holds: a checkpoint dict, or a bare [state_dict]. *)
Inductive Artifact : Type :=
| FCheckpoint (c : Checkpoint)
| FStateDict (p : Params).

(** What [main] does that is visible from outside, in order.  [validate]
    and the logger only observe; they leave no other mark here. *)
Inductive Event : Type :=
| EvCreateLogger (log_dir : CfgValue)
| EvSummaryWriter
| EvModel
| EvLoadStateDict (path : string)
| EvOptimizer
| EvDataset (d : Dataset)
| EvValDataset
| EvSetEpoch (epoch : Z)
| EvTrain (epoch : Z)
| EvLrStep
| EvValidate (epoch : Z)
| EvSaveCheckpoint (epoch : Z) (path : string) (c : Checkpoint)
| EvSaveFinal (path : string) (state_dict : Params)
| EvWriterClose.

Record World : Type := {
  disk : gmap string Artifact;
  trace : list Event
}.

(** A computation that reads and writes the world and may raise; the world
    reached so far survives an exception. *)
Definition Run (A : Type) : Type := World -> Result A * World.

#[export] Instance Run_ret : MRet Run := fun _ a w => (Ok a, w).
#[export] Instance Run_bind : MBind Run := fun _ _ f m w =>
  match m w with
  | (Ok a, w') => f a w'
  | (Raise e, w') => (Raise e, w')
  end.

Definition lift {A} (r : Result A) : Run A := fun w => (r, w).

Definition emit (e : Event) : Run unit :=
  fun w => (Ok (), {| disk := disk w; trace := trace w ++ [e] |}).

(** A one-armed [if]. *)
Definition when (b : bool) (m : Run unit) : Run unit :=
  if b then m else mret ().

(** [torch.save(obj, path)] *)
Definition torch_save (obj : Artifact) (path : string) : Run unit :=
  fun w => (Ok (), {| disk := <[path := obj]> (disk w); trace := trace w |}).

(** [torch.load(path)] *)
Definition torch_load (path : string) : Run Artifact :=
  fun w =>
    match disk w !! path with
    | Some obj => (Ok obj, w)
    | None => (Raise (FileNotFoundError path), w)
    end.

(** [os.path.join(a, b)] *)
Definition path_join (a b : string) : string :=
  if String.prefix "/" b then b
  else if decide (a = "") then b
  else if decide (String.get (String.length a - 1) a = Some "/"%char) then a +:+ b
  else a +:+ "/" +:+ b.

(** The model, the optimizer (with the gradient scaler) and the step
    counters: what a training pass may change. *)
Record Learner : Type := {
  model : Params;
  optimizer : OptState;
  writer_dict : WriterDict
}.

(** The parts of the repository [main] calls into, and its process
    environment.  They are taken to return: an exception raised inside a
    collaborator is outside this model. *)
Class Collaborators : Type := {
  (** [lib.config.kitti_360._C] *)
  cfg_kitti : CfgNode;
  (** [RANK] of [os.environ], [-1] when unset *)
  global_rank : Z;
  (** [final_output_dir] of [create_logger(cfg, cfg.LOG_DIR, 'train')] *)
  final_output_dir : CfgNode -> CfgValue -> string;
  (** parameters of the freshly built [smp.PSPNet] *)
  initial_state_dict : Params;
  get_optimizer : CfgNode -> Params -> OptState;
  (** [len] of a freshly constructed training dataset *)
  dataset_len : CfgNode -> DatasetKind -> option (CfgValue * CfgValue) -> N;
  (** [len(WeightedDataLoader(..., num_samples, batch_size))] *)
  loader_len : Z -> CfgValue -> Z;
  (** one training pass: [train(cfg, ..., epoch, num_batch, num_warmup, ...)] *)
  train : CfgNode -> Z -> Z -> Z -> Learner -> Learner
}.

Context `{Collaborators}.

Definition cfg_waymo : CfgNode := _C.

(** Lines 62-67: the configuration is chosen by [--dataset_type]. *)
Definition select_config (args : Args) : Result CfgNode :=
  if decide (dataset_type args = "kitti") then Ok cfg_kitti
  else if decide (dataset_type args = "waymo") then Ok cfg_waymo
  else Raise (ValueError "Unsupported dataset type").

(** Lines 100-101: model weights are taken from [torch.load(path)['state_dict']]. *)
Definition load_state_dict (path : string) : Run Params :=
  obj ← torch_load path;
  match obj with
  | FCheckpoint c => emit (EvLoadStateDict path);; mret (ck_state_dict c)
  | FStateDict _ => lift (Raise (KeyError "state_dict"))
  end.

(** Lines 93-101: the weights [main] starts from.  [if args.load_from:]
    is false for [None] and for the empty string. *)
Definition initial_model (args : Args) : Run Params :=
  match load_from args with
  | Some path =>
      if str_truthy path then load_state_dict path else mret initial_state_dict
  | None => mret initial_state_dict
  end.

(** Lines 106-107: evaluating [lf(x)] divides by [cfg.TRAIN.END_EPOCH] and
    reads [cfg.TRAIN.LRF]; its value is [Schedule.lf] below. *)
Definition lf_evaluates (cfg : CfgNode) : Result unit :=
  end_epoch ← read cfg ["TRAIN"; "END_EPOCH"] ≫= as_num;
  (if decide (end_epoch = 0%Qc) then Raise ZeroDivisionError else Ok ());;
  read cfg ["TRAIN"; "LRF"] ≫= as_num;;
  Ok ().

Definition new_dataset (cfg : CfgNode) (kind : DatasetKind)
  (window : option (CfgValue * CfgValue)) (name : string) : Run Dataset :=
  let d := {| ds_kind := kind; ds_window := window; ds_name := name;
              ds_len := dataset_len cfg kind window |} in
  emit (EvDataset d);; mret d.

(** Lines 114-178: which training datasets are built, and the fractions
    that go with them. *)
Definition select_datasets (cfg : CfgNode) : Run (list Dataset * CfgValue) :=
  masks_only ← lift (read cfg ["DATASET"; "MASKS_ONLY"]);
  if truthy masks_only then
    lift (read cfg ["MODEL"; "IMAGE_SIZE"]);;
    dataset1 ← new_dataset cfg SegmDataset2D None "Segmentation 2D";
    mret ([dataset1], VList [SFloat (fl 1 1)])
  else
    lidar_data_only ← lift (read cfg ["DATASET"; "LIDAR_DATA_ONLY"]);
    if truthy lidar_data_only then
      lift (read cfg ["MODEL"; "IMAGE_SIZE"]);;
      dataset1 ← new_dataset cfg SegmDataset3D None "Segmentation repojected 3D";
      mret ([dataset1], VList [SFloat (fl 1 1)])
    else
      lift (read cfg ["MODEL"; "IMAGE_SIZE"]);;
      from3 ← lift (read cfg ["DATASET"; "from_img_3D"]);
      to3 ← lift (read cfg ["DATASET"; "to_img_3D"]);
      dataset1 ← new_dataset cfg SegmDataset3D (Some (from3, to3))
                   "Segmentation repojected 3D";
      lift (read cfg ["MODEL"; "IMAGE_SIZE"]);;
      from2 ← lift (read cfg ["DATASET"; "from_img_2D"]);
      to2 ← lift (read cfg ["DATASET"; "to_img_2D"]);
      dataset2 ← new_dataset cfg SegmDataset2D (Some (from2, to2))
                   "Segmentation 2D";
      datasets_fractions ← lift (read cfg ["DATASET"; "DATASETS_FRACTIONS"]);
      mret ([dataset1; dataset2], datasets_fractions).

(** What the set-up part of [main] (lines 69-235) hands to the epoch loop. *)
Record Setup : Type := {
  su_learner : Learner;
  su_output_dir : string;
  su_begin_epoch : CfgValue;
  su_mix : Mix;
  su_num_batch : Z;
  su_num_warmup : Z
}.

Definition setup (cfg : CfgNode) (args : Args) : Run Setup :=
  log_dir ← lift (read cfg ["LOG_DIR"]);
  emit (EvCreateLogger log_dir);;
  let output_dir := final_output_dir cfg log_dir in
  emit EvSummaryWriter;;
  let writer := {| train_global_steps := 0; valid_global_steps := 0 |} in
  lift (read cfg ["CUDNN"; "BENCHMARK"]);;
  lift (read cfg ["CUDNN"; "DETERMINISTIC"]);;
  lift (read cfg ["CUDNN"; "ENABLED"]);;
  emit EvModel;;
  state_dict ← initial_model args;
  emit EvOptimizer;;
  let opt := get_optimizer cfg state_dict in
  (* LambdaLR's constructor takes its first step and evaluates lf(0) *)
  lift (lf_evaluates cfg);;
  begin_epoch ← lift (read cfg ["TRAIN"; "BEGIN_EPOCH"]);
  lift (read cfg ["DATASET"; "PATH"]);;
  '(datasets, datasets_fractions) ← select_datasets cfg;
  mix ← lift (mixer datasets datasets_fractions);
  batch_size ← lift (read cfg ["TRAIN"; "BATCH_SIZE"]);
  lift (read cfg ["WORKERS"]);;
  lift (read cfg ["PIN_MEMORY"]);;
  let num_batch := loader_len (num_samples mix) batch_size in
  lift (read cfg ["DATASET"; "VAL_PATH"]);;
  lift (read cfg ["MODEL"; "IMAGE_SIZE"]);;
  emit EvValDataset;;
  lift (read cfg ["TEST"; "BATCH_SIZE"]);;
  lift (read cfg ["WORKERS"]);;
  lift (read cfg ["PIN_MEMORY"]);;
  warmup_epochs ← lift (read cfg ["TRAIN"; "WARMUP_EPOCHS"] ≫= as_num);
  let num_warmup :=
    Z.max (py_round (warmup_epochs * Qc_of_Z num_batch)%Qc) 1000 in
  mret {| su_learner := {| model := state_dict; optimizer := opt;
                           writer_dict := writer |};
          su_output_dir := output_dir;
          su_begin_epoch := begin_epoch;
          su_mix := mix;
          su_num_batch := num_batch;
          su_num_warmup := num_warmup |}.

(** The state the epoch loop carries: the learner and the scheduler's
    [last_epoch] counter. *)
Record LoopState : Type := {
  learner : Learner;
  last_epoch : Z
}.

(** Line 247: [epoch % VAL_FREQ == 0 or epoch == END_EPOCH]. *)
Definition validation_due (cfg : CfgNode) (epoch : Z) : Result bool :=
  val_freq ← read cfg ["TRAIN"; "VAL_FREQ"] ≫= as_num;
  m ← num_mod epoch val_freq;
  if decide (m = 0%Qc) then Ok true
  else
    end_epoch ← read cfg ["TRAIN"; "END_EPOCH"];
    Ok (eq_int epoch end_epoch).

(** Modelled from the spec: [save_checkpoint] (in [lib/utils/utils.py])
    writes the four fields to [output_dir/filename]. *)
Definition save_checkpoint (epoch : Z) (name : CfgValue) (l : Learner)
  (output_dir filename : string) : Run unit :=
  let path := path_join output_dir filename in
  let checkpoint := {| ck_epoch := epoch; ck_model_name := name;
                       ck_state_dict := model l;
                       ck_optimizer := optimizer l |} in
  torch_save (FCheckpoint checkpoint) path;;
  emit (EvSaveCheckpoint epoch path checkpoint).

Definition checkpoint_name (epoch : Z) : string :=
  "epoch-" +:+ pretty epoch +:+ ".pth".

(** Lines 238-271: the body of the epoch loop. *)
Definition epoch_body (cfg : CfgNode) (su : Setup) (epoch : Z) (st : LoopState)
  : Run LoopState :=
  when (bool_decide (global_rank ≠ -1)) (emit (EvSetEpoch epoch));;
  let l := train cfg epoch (su_num_batch su) (su_num_warmup su) (learner st) in
  emit (EvTrain epoch);;
  lift (lf_evaluates cfg);;
  emit EvLrStep;;
  let st' := {| learner := l; last_epoch := last_epoch st + 1 |} in
  due ← lift (validation_due cfg epoch);
  when due (emit (EvValidate epoch));;
  when (bool_decide (epoch mod 5 = 0))
    (name ← lift (read cfg ["MODEL"; "NAME"]);
     save_checkpoint epoch name l (su_output_dir su) (checkpoint_name epoch));;
  mret st'.

Fixpoint epoch_loop (cfg : CfgNode) (su : Setup) (epochs : list Z) (st : LoopState)
  : Run LoopState :=
  match epochs with
  | [] => mret st
  | epoch :: rest =>
      st' ← epoch_body cfg su epoch st;
      epoch_loop cfg su rest st'
  end.

(** Line 237: the epochs the loop visits. *)
Definition epochs_of (cfg : CfgNode) (su : Setup) : Result (list Z) :=
  begin_epoch ← as_int (su_begin_epoch su);
  end_epoch ← read cfg ["TRAIN"; "END_EPOCH"] ≫= as_int;
  Ok (py_range (begin_epoch + 1) (end_epoch + 1)).

(** Lines 273-279. *)
Definition finish (su : Setup) (st : LoopState) : Run unit :=
  let final_model_state_file := path_join (su_output_dir su) "final_state.pth" in
  let model_state := model (learner st) in
  torch_save (FStateDict model_state) final_model_state_file;;
  emit (EvSaveFinal final_model_state_file model_state);;
  emit EvWriterClose.

(** Lines 237-279: the epoch loop and what follows it. *)
Definition training (cfg : CfgNode) (su : Setup) : Run LoopState :=
  epochs ← lift (epochs_of cfg su);
  st ← epoch_loop cfg su epochs {| learner := su_learner su; last_epoch := 0 |};
  finish su st;;
  mret st.

(** Lines 69-279: [main] once the configuration is chosen. *)
Definition proceed (cfg : CfgNode) (args : Args) : Run LoopState :=
  cfg ← lift (update_config cfg args);
  su ← setup cfg args;
  training cfg su.

Definition main (args : Args) : Run LoopState :=
  cfg ← lift (select_config args);
  proceed cfg args.

(** A fresh process on a given disk. *)
Definition boot (d : gmap string Artifact) : World := {| disk := d; trace := [] |}.

(** *** Reading a trace *)

(** Events of the set-up part (lines 69-235). *)
Definition is_setup_event (e : Event) : bool :=
  match e with
  | EvCreateLogger _ | EvSummaryWriter | EvModel | EvLoadStateDict _
  | EvOptimizer | EvDataset _ | EvValDataset => true
  | _ => false
  end.

(** Events that write an artifact. *)
Definition is_save (e : Event) : bool :=
  match e with
  | EvSaveCheckpoint _ _ _ | EvSaveFinal _ _ => true
  | _ => false
  end.

Definition is_lr_step (e : Event) : bool :=
  match e with EvLrStep => true | _ => false end.

(** The epochs trained, in order. *)
Definition trained_epochs (t : list Event) : list Z :=
  omap (λ e, match e with EvTrain epoch => Some epoch | _ => None end) t.

(** The epochs at which an epoch-tagged checkpoint was written, in order. *)
Definition checkpoint_epochs (t : list Event) : list Z :=
  omap (λ e, match e with EvSaveCheckpoint epoch _ _ => Some epoch | _ => None end) t.

(** A computation that leaves the disk alone and only appends events that
    satisfy [P]. *)
Definition quiet {A} (P : Event → bool) (m : Run A) : Prop :=
  ∀ w, disk (m w).2 = disk w ∧ ∃ t, trace (m w).2 = trace w ++ t ∧ forallb P t = true.

(** The configuration [main] works with: chosen by [--dataset_type], then
    passed through [update_config]. *)
Definition effective_config (args : Args) : Result CfgNode :=
  cfg ← select_config args; update_config cfg args.

(** What the epoch loop reads from the configuration besides the schedule
    parameters: a non-zero numeric [TRAIN.VAL_FREQ] and [MODEL.NAME]. *)
Definition loop_reads (cfg : CfgNode) (name : CfgValue) : Prop :=
  (∃ val_freq, read cfg ["TRAIN"; "VAL_FREQ"] ≫= as_num = Ok val_freq ∧ val_freq ≠ 0%Qc) ∧
  read cfg ["MODEL"; "NAME"] = Ok name.

(** A computation that only appends to the trace, whatever its outcome. *)
Definition extends {A} (m : Run A) : Prop :=
  ∀ w, ∃ t, trace (m w).2 = trace w ++ t.

(** *** The epoch loop as a pure function

    What one epoch and a list of epochs leave behind, given that no read of
    the configuration fails. *)

Definition train_pass (cfg : CfgNode) (su : Setup) (l : Learner) (epoch : Z) : Learner :=
  train cfg epoch (su_num_batch su) (su_num_warmup su) l.

(** The learner after the epochs [a, a+1, ..., e]. *)
Definition learner_after (cfg : CfgNode) (su : Setup) (l : Learner) (a e : Z) : Learner :=
  fold_left (train_pass cfg su) (py_range a (e + 1)) l.

Definition due (cfg : CfgNode) (epoch : Z) : bool :=
  match validation_due cfg epoch with Ok b => b | Raise _ => false end.

Definition checkpoint_of (epoch : Z) (name : CfgValue) (l : Learner) : Checkpoint :=
  {| ck_epoch := epoch; ck_model_name := name;
     ck_state_dict := model l; ck_optimizer := optimizer l |}.

Definition checkpoint_path (su : Setup) (epoch : Z) : string :=
  path_join (su_output_dir su) (checkpoint_name epoch).

Definition checkpoint_event (su : Setup) (name : CfgValue) (epoch : Z) (l : Learner)
  : Event :=
  EvSaveCheckpoint epoch (checkpoint_path su epoch) (checkpoint_of epoch name l).

(** [l] is the learner after the training pass of [epoch]. *)
Definition body_trace (cfg : CfgNode) (su : Setup) (name : CfgValue) (epoch : Z)
  (l : Learner) : list Event :=
  (if bool_decide (global_rank ≠ -1) then [EvSetEpoch epoch] else [])
  ++ [EvTrain epoch; EvLrStep]
  ++ (if due cfg epoch then [EvValidate epoch] else [])
  ++ (if bool_decide (epoch mod 5 = 0) then [checkpoint_event su name epoch l] else []).

Definition body_world (cfg : CfgNode) (su : Setup) (name : CfgValue) (epoch : Z)
  (l : Learner) (w : World) : World :=
  {| disk := if bool_decide (epoch mod 5 = 0)
             then <[checkpoint_path su epoch := FCheckpoint (checkpoint_of epoch name l)]> (disk w)
             else disk w;
     trace := trace w ++ body_trace cfg su name epoch l |}.

Fixpoint loop_world (cfg : CfgNode) (su : Setup) (name : CfgValue) (epochs : list Z)
  (l : Learner) (w : World) : World :=
  match epochs with
  | [] => w
  | epoch :: rest =>
      let l' := train_pass cfg su l epoch in
      loop_world cfg su name rest l' (body_world cfg su name epoch l' w)
  end.

Fixpoint loop_trace (cfg : CfgNode) (su : Setup) (name : CfgValue) (epochs : list Z)
  (l : Learner) : list Event :=
  match epochs with
  | [] => []
  | epoch :: rest =>
      let l' := train_pass cfg su l epoch in
      body_trace cfg su name epoch l' ++ loop_trace cfg su name rest l'
  end.

Definition final_path (su : Setup) : string :=
  path_join (su_output_dir su) "final_state.pth".

(** The world after lines 273-279. *)
Definition finish_world (su : Setup) (l : Learner) (w : World) : World :=
  {| disk := <[final_path su := FStateDict (model l)]> (disk w);
     trace := trace w ++ [EvSaveFinal (final_path su) (model l); EvWriterClose] |}.

(** *** More ways to read a trace *)

(** The epochs validated, in order. *)
Definition validated_epochs (t : list Event) : list Z :=
  omap (λ e, match e with EvValidate epoch => Some epoch | _ => None end) t.

(** The epochs handed to the sampler's [set_epoch], in order. *)
Definition sampler_epochs (t : list Event) : list Z :=
  omap (λ e, match e with EvSetEpoch epoch => Some epoch | _ => None end) t.

(** The two events of lines 273-279. *)
Definition is_final_event (e : Event) : bool :=
  match e with
  | EvSaveFinal _ _ | EvWriterClose => true
  | _ => false
  end.

(** A computation that, whatever its outcome, only appends events that
    satisfy [P]. *)
Definition emits {A} (P : Event → bool) (m : Run A) : Prop :=
  ∀ w, ∃ t, trace (m w).2 = trace w ++ t ∧ forallb P t = true.

(** A computation that, whatever its outcome, leaves the file at [path] as
    it was. *)
Definition keeps {A} (path : string) (m : Run A) : Prop :=
  ∀ w, disk (m w).2 !! path = disk w !! path.

End Run.

Arguments Checkpoint : clear implicits.
Arguments Artifact : clear implicits.
Arguments World : clear implicits.
Arguments Learner : clear implicits.
Arguments LoopState : clear implicits.
Arguments Setup : clear implicits.
Arguments Collaborators : clear implicits.
Arguments Event : clear implicits.

(** *** A small instance of the collaborators

    Weights and optimizer state are the number of training passes applied;
    a pass over [num_batch] batches advances [train_global_steps] by
    [num_batch].  The KITTI-360 configuration and the lengths of the 2D and
    3D datasets are chosen by the caller. *)
Definition counting_with (kitti : CfgNode) (len2D len3D : N) : Collaborators Z Z := {|
  cfg_kitti := kitti;
  global_rank := -1;
  final_output_dir := λ _ _, "runs/out";
  initial_state_dict := 0;
  get_optimizer := λ _ _, 0;
  dataset_len := λ _ kind _,
    match kind with SegmDataset2D => len2D | SegmDataset3D => len3D end;
  loader_len := λ n _, n / 6;
  train := λ _ _ num_batch _ l,
    {| model := model l + 1;
       optimizer := optimizer l + 1;
       writer_dict :=
         {| train_global_steps := train_global_steps (writer_dict l) + num_batch;
            valid_global_steps := valid_global_steps (writer_dict l) |} |}
|}.

(** With the Waymo tree standing in for the KITTI-360 one, 500 samples of 2D
    masks and 1000 of reprojected lidar. *)
Definition counting : Collaborators Z Z := counting_with Config._C 500 1000.

(** *** Concrete inputs *)

(** The default command line, resuming from a given file. *)
Definition resume_args (path : string) : Args :=
  {| logDir := "runs/"; load_from := Some path; dataset_type := "waymo" |}.

(** The default Waymo configuration as [main] uses it. *)
Definition waymo_effective : CfgNode :=
  freeze (setitem (defrost _C) "LOG_DIR" (VStr "runs/")).

(** A disk that holds one checkpoint, written at epoch 5. *)
Definition disk_with_checkpoint : gmap string (Artifact Z Z) :=
  {[ "runs/out/epoch-5.pth" :=
       FCheckpoint {| ck_epoch := 5; ck_model_name := VStr "";
                      ck_state_dict := 5; ck_optimizer := 5 |} ]}.

(** A KITTI-360 configuration that begins at epoch 300, past [END_EPOCH]. *)
Definition late_start : CfgNode :=
  with_entry "TRAIN" "BEGIN_EPOCH" (VInt 300) _C.

(** The default command line with [--dataset_type kitti]. *)
Definition kitti_args : Args :=
  {| logDir := "runs/"; load_from := None; dataset_type := "kitti" |}.

(** A KITTI-360 configuration in masks-only mode. *)
Definition masks_only_cfg : CfgNode :=
  with_entry "DATASET" "MASKS_ONLY" (VBool true) _C.

(** A KITTI-360 configuration with a given validation frequency. *)
Definition val_freq_cfg (v : Z) : CfgNode :=
  with_entry "TRAIN" "VAL_FREQ" (VInt v) _C.

(** The small instance as the distributed worker of rank 0. *)
Definition distributed : Collaborators Z Z := {|
  cfg_kitti := Config._C;
  global_rank := 0;
  final_output_dir := @final_output_dir Z Z counting;
  initial_state_dict := @initial_state_dict Z Z counting;
  get_optimizer := @get_optimizer Z Z counting;
  dataset_len := @dataset_len Z Z counting;
  loader_len := @loader_len Z Z counting;
  train := @train Z Z counting
|}.

(** A disk that holds the final state of a run of 200 epochs. *)
Definition disk_with_final_state : gmap string (Artifact Z Z) :=
  {[ "runs/out/final_state.pth" := FStateDict 200 ]}.

End Train.

(** Evaluate both sides; canonical rationals are equal when their
    fractions are. *)
Ltac qc_eval :=
  vm_compute; repeat (f_equal; try (apply Qc_is_canon; reflexivity)).

(** * Properties of the configuration *)

Section ConfigFacts.
Import Config.

Lemma assoc_get_set_eq k v es : assoc_get k (assoc_set k v es) = Some v.
Proof.
  induction es as [|k' v' rest IH]; simpl.
  - by rewrite decide_True.
  - destruct (decide (k' = k)) as [->|Hne]; simpl.
    + by rewrite decide_True.
    + by rewrite decide_False.
Qed.

Lemma assoc_get_set_ne k k' v es :
  k ≠ k' → assoc_get k' (assoc_set k v es) = assoc_get k' es.
Proof.
  intros Hne. induction es as [|k0 v0 rest IH]; simpl.
  - by rewrite decide_False.
  - destruct (decide (k0 = k)) as [->|Hne0]; simpl.
    + by rewrite !decide_False.
    + destruct (decide (k0 = k')); [done | exact IH].
Qed.

Lemma assoc_get_set_immutable flag k es :
  assoc_get k (set_immutable_entries flag es)
  = set_immutable_value flag <$> assoc_get k es.
Proof.
  induction es as [|k' v' rest IH]; simpl; [done|].
  destruct (decide (k' = k)); [done | exact IH].
Qed.

Lemma entries_set_immutable flag n :
  entries (set_immutable flag n) = set_immutable_entries flag (entries n).
Proof. by destruct n. Qed.

Lemma lookup_value_set_immutable flag path : ∀ v,
  lookup_value path (set_immutable_value flag v)
  = set_immutable_value flag <$> lookup_value path v.
Proof.
  induction path as [|k rest IH]; intros v; simpl; [done|].
  destruct v as [s|l|n]; simpl; try done.
  rewrite entries_set_immutable, assoc_get_set_immutable.
  destruct (assoc_get k (entries n)) as [v'|]; simpl; [apply IH | done].
Qed.

(** Setting the flags twice is setting them once, with the last flag. *)
Lemma set_immutable_twice f g :
  (∀ n, set_immutable f (set_immutable g n) = set_immutable f n) ∧
  (∀ es, set_immutable_entries f (set_immutable_entries g es)
         = set_immutable_entries f es) ∧
  (∀ v, set_immutable_value f (set_immutable_value g v) = set_immutable_value f v).
Proof.
  apply Cfg_mutind; simpl; intros; congruence.
Qed.

Lemma content_set_immutable flag v : content (set_immutable_value flag v) = content v.
Proof. apply set_immutable_twice. Qed.

Lemma content_lookup_set_immutable flag path n :
  content <$> lookup_path path (set_immutable flag n)
  = content <$> lookup_path path n.
Proof.
  unfold lookup_path.
  change (VNode (set_immutable flag n)) with (set_immutable_value flag (VNode n)).
  rewrite lookup_value_set_immutable.
  destruct (lookup_value path (VNode n)); simpl; [|done].
  by rewrite content_set_immutable.
Qed.

Lemma immutable_set_immutable flag n : immutable (set_immutable flag n) = flag.
Proof. by destruct n. Qed.

Lemma new_allowed_set_immutable flag n :
  new_allowed (set_immutable flag n) = new_allowed n.
Proof. by destruct n. Qed.

(** [update_config] never raises: the node is defrosted before the
    assignment. *)
Lemma update_config_value cfg args :
  update_config cfg args
  = Ok (freeze (if str_truthy (logDir args)
                then setitem (defrost cfg) "LOG_DIR" (VStr (logDir args))
                else defrost cfg)).
Proof.
  unfold update_config, setattr, defrost.
  rewrite immutable_set_immutable.
  by destruct (str_truthy (logDir args)).
Qed.

Lemma lookup_path_setitem_ne n k v k' rest :
  k ≠ k' → lookup_path (k' :: rest) (setitem n k v) = lookup_path (k' :: rest) n.
Proof.
  intros Hne. unfold lookup_path, setitem; simpl.
  by rewrite assoc_get_set_ne.
Qed.

Lemma update_config_log_dir cfg args :
  str_truthy (logDir args) = true →
  ∃ cfg', update_config cfg args = Ok cfg' ∧
          lookup_path ["LOG_DIR"] cfg' = Some (VStr (logDir args)).
Proof.
  intros Ht. eexists. split; [apply update_config_value|]. rewrite Ht.
  unfold freeze, defrost, lookup_path, setitem. simpl.
  rewrite entries_set_immutable. simpl.
  by rewrite assoc_get_set_immutable, assoc_get_set_eq.
Qed.

(** C8: [update_config] always succeeds; it sets [LOG_DIR] to [--logDir]
    when that argument is non-empty and otherwise keeps it; every other
    field, at any depth, holds what it held before, and so do the
    [new_allowed] flags; [--load_from] and [--dataset_type] play no part in
    the result. *)
Theorem update_config_frame (cfg : CfgNode) (args : Args) :
  ∃ cfg',
    update_config cfg args = Ok cfg' ∧
    (if str_truthy (logDir args)
     then lookup_path ["LOG_DIR"] cfg' = Some (VStr (logDir args))
     else content <$> lookup_path ["LOG_DIR"] cfg'
          = content <$> lookup_path ["LOG_DIR"] cfg) ∧
    (∀ k rest, k ≠ "LOG_DIR" →
       content <$> lookup_path (k :: rest) cfg'
       = content <$> lookup_path (k :: rest) cfg) ∧
    new_allowed cfg' = new_allowed cfg ∧
    (∀ lf dt,
       update_config cfg {| logDir := logDir args; load_from := lf;
                            dataset_type := dt |} = Ok cfg').
Proof.
  eexists. split; [apply update_config_value|].
  unfold freeze, defrost. repeat split.
  - destruct (str_truthy (logDir args)).
    + unfold lookup_path, setitem. simpl.
      rewrite entries_set_immutable. simpl.
      by rewrite assoc_get_set_immutable, assoc_get_set_eq.
    + by rewrite !content_lookup_set_immutable.
  - intros k rest Hne. rewrite content_lookup_set_immutable.
    destruct (str_truthy (logDir args)).
    + rewrite lookup_path_setitem_ne by done.
      apply content_lookup_set_immutable.
    + apply content_lookup_set_immutable.
  - rewrite new_allowed_set_immutable.
    destruct (str_truthy (logDir args)); simpl;
      by rewrite ?new_allowed_set_immutable.
  - intros lf dt. by rewrite update_config_value.
Qed.

Lemma update_config_frame_witness :
  ∃ cfg',
    update_config _C default_args = Ok cfg' ∧
    lookup_path ["LOG_DIR"] cfg' = Some (VStr "runs/") ∧
    content <$> lookup_path ["TRAIN"; "END_EPOCH"] cfg' = Some (VInt 200).
Proof.
  destruct (update_config_frame _C default_args) as (cfg' & Hok & Hlog & Hframe & _).
  exists cfg'. split; [exact Hok|]. split; [exact Hlog|].
  rewrite Hframe by done. reflexivity.
Defined.







(** ** Further properties of [update_config] *)

Lemma all_immutable_set_immutable flag :
  (∀ n, all_immutable flag (set_immutable flag n) = true) ∧
  (∀ es, all_immutable_entries flag (set_immutable_entries flag es) = true) ∧
  (∀ v, all_immutable_value flag (set_immutable_value flag v) = true).
Proof.
  apply Cfg_mutind; simpl; intros; try done.
  - rewrite bool_decide_true by done. done.
  - by rewrite H, H0.
Qed.

Lemma assoc_set_twice k v1 v2 es :
  assoc_set k v2 (assoc_set k v1 es) = assoc_set k v2 es.
Proof.
  induction es as [|k' v' rest IH]; simpl.
  - by rewrite decide_True.
  - destruct (decide (k' = k)) as [->|Hne]; simpl.
    + by rewrite decide_True.
    + rewrite decide_False by done. by rewrite IH.
Qed.

Lemma set_immutable_entries_assoc_set flag k v es :
  set_immutable_entries flag (assoc_set k v es)
  = assoc_set k (set_immutable_value flag v) (set_immutable_entries flag es).
Proof.
  induction es as [|k' v' rest IH]; simpl; [done|].
  destruct (decide (k' = k)); simpl; [done|]. by rewrite IH.
Qed.

Lemma set_immutable_setitem flag n k v :
  set_immutable flag (setitem n k v)
  = setitem (set_immutable flag n) k (set_immutable_value flag v).
Proof.
  destruct n as [a i es]. unfold setitem. simpl.
  by rewrite set_immutable_entries_assoc_set.
Qed.

Lemma setitem_twice n k v1 v2 : setitem (setitem n k v1) k v2 = setitem n k v2.
Proof. destruct n. unfold setitem. simpl. by rewrite assoc_set_twice. Qed.

(** X1: whatever tree [update_config] is given, frozen or not, the tree it
    returns is frozen at every depth: an attribute assignment on it, or on
    any group reached from it, raises [AttributeError]. *)
Theorem update_config_result_frozen (cfg : CfgNode) (args : Args) :
  ∃ cfg',
    update_config cfg args = Ok cfg' ∧
    all_immutable true cfg' = true ∧
    (∀ path n k v,
       lookup_path path cfg' = Some (VNode n) →
       setattr n k v = Raise (AttributeError k)).
Proof.
  eexists. split; [apply update_config_value|]. split.
  - apply all_immutable_set_immutable.
  - intros path n k v. unfold freeze, lookup_path.
    match goal with
    | |- lookup_value path (VNode (set_immutable true ?x)) = _ → _ =>
        change (VNode (set_immutable true x))
          with (set_immutable_value true (VNode x))
    end.
    rewrite lookup_value_set_immutable.
    destruct (lookup_value path _) as [[s|l|n0]|]; simpl; try discriminate.
    intros [= <-]. unfold setattr. by rewrite immutable_set_immutable.
Qed.

(** X2: two calls in a row.  A second [update_config] with a non-empty
    [--logDir] gives what that call alone would have given on the original
    tree; with an empty [--logDir] it changes nothing.  In particular
    [update_config] is idempotent. *)
Theorem update_config_twice (cfg cfg1 : CfgNode) (args1 args2 : Args) :
  update_config cfg args1 = Ok cfg1 →
  update_config cfg1 args2
  = (if str_truthy (logDir args2) then update_config cfg args2 else Ok cfg1) ∧
  update_config cfg1 args1 = Ok cfg1.
Proof.
  rewrite !update_config_value. intros [= <-]. unfold freeze, defrost.
  pose proof (proj1 (set_immutable_twice false true)) as Hft.
  pose proof (proj1 (set_immutable_twice true false)) as Htf.
  pose proof (proj1 (set_immutable_twice false false)) as Hff.
  pose proof (proj1 (set_immutable_twice true true)) as Htt.
  split.
  - destruct (str_truthy (logDir args2)), (str_truthy (logDir args1));
      rewrite ?Hft, ?set_immutable_setitem, ?Hff, ?Htt, ?Htf, ?setitem_twice; done.
  - destruct (str_truthy (logDir args1));
      rewrite ?Hft, ?set_immutable_setitem, ?Hff, ?Htt, ?Htf, ?setitem_twice; done.
Qed.

Lemma update_config_twice_witness :
  update_config (freeze (setitem (defrost _C) "LOG_DIR" (VStr "first/")))
    {| logDir := "second/"; load_from := None; dataset_type := "waymo" |}
  = update_config _C
      {| logDir := "second/"; load_from := None; dataset_type := "waymo" |}.
Proof.
  exact (proj1 (update_config_twice _C _
                  {| logDir := "first/"; load_from := None; dataset_type := "waymo" |}
                  {| logDir := "second/"; load_from := None; dataset_type := "waymo" |}
                  eq_refl)).
Defined.

End ConfigFacts.


(** * Rounding to binary64 *)

Section Float64Facts.
Import Config Train Float64.




















End Float64Facts.

Section Binary64.
Import Train PrimFloat.

(** [Float64] computes what the machine computes: its rounding, product and
    quotient agree with the binary64 operations of the kernel on the
    fractions, products and quotients met below, at the overflow threshold
    and on ties among the subnormals. *)
Lemma float64_agrees_with_binary64 :
  Float64.round (fl 29 100) = Float64.of_float (29 / 100)%float ∧
  Float64.mul (Float64.round (fl 29 100)) (Float64.round (Qc_of_Z 100))
  = Float64.of_float (29 / 100 * 100)%float ∧
  Float64.round (fl 1 3) = Float64.of_float (1 / 3)%float ∧
  Float64.mul (Float64.round (fl 1 3)) (Float64.round (Qc_of_Z 3))
  = Float64.of_float (1 / 3 * 3)%float ∧
  Float64.mul (Float64.round (fl 1 3)) (Float64.round (Qc_of_Z 3)) = Finite 1%Qc ∧
  Float64.true_divide 1 3 = Float64.of_float (1 / 3)%float ∧
  Float64.true_divide 2 3 = Float64.of_float (2 / 3)%float ∧
  Float64.true_divide 1000 1250 = Float64.of_float (4 / 5)%float ∧
  Float64.true_divide 250 1250 = Float64.of_float (1 / 5)%float ∧
  Float64.mul (Float64.round (Float64.pow2 1023)) (Float64.round (Qc_of_Z 100))
  = Float64.of_float (0x1p1023 * 100)%float ∧
  Float64.round (Float64.pow2 1024 - Float64.pow2 970)%Qc
  = Float64.of_float (0x1p1023 + 0x1.fffffffffffffp1022 + 0x1p970)%float ∧
  Float64.round (Float64.pow2 (-1075)) = Float64.of_float (0x1p-1074 / 2)%float ∧
  Float64.round (Qc_of_Z 3 * Float64.pow2 (-1075))%Qc = Float64.of_float (0x1p-1074 * 1.5)%float ∧
  Float64.round (Qc_of_Z (2 ^ 53 + 1)) = Float64.of_float (0x1p53 + 1)%float ∧
  Float64.round (Qc_of_Z (2 ^ 53 + 3)) = Float64.of_float (0x1p53 + 3)%float.
Proof. repeat split; qc_eval. Qed.

End Binary64.


(** * Properties of the fraction mixer *)

Section MixerFacts.
Import Config Train.

Lemma sumZ_app l1 l2 : sumZ (l1 ++ l2) = sumZ l1 + sumZ l2.
Proof. unfold sumZ. induction l1 as [|x l1 IH]; simpl; lia. Qed.

Lemma mixer_loop_ok (fs : list Qc) : ∀ ds i acc,
  (i + length ds ≤ length fs)%nat →
  mixer_loop (VList (SFloat <$> fs)) i ds acc
  = Ok (acc.1 ++ zip_with int_budget (drop i fs) ds,
        acc.2 + sumZ (zip_with int_budget (drop i fs) ds)).
Proof.
  induction ds as [|d ds IH]; intros i acc Hlen; simpl.
  - destruct (drop i fs); simpl; rewrite app_nil_r, Z.add_0_r; by destruct acc.
  - simpl in Hlen.
    destruct (lookup_lt_is_Some_2 fs i) as [f Hf]; [lia|].
    rewrite list_lookup_fmap, Hf. simpl.
    rewrite IH by lia. simpl.
    rewrite (drop_S _ _ _ Hf). simpl.
    rewrite <- app_assoc. simpl. f_equal. f_equal.
    unfold int_budget, sumZ. simpl. lia.
Qed.

Lemma mixer_loop_short (fs : list Qc) : ∀ ds i acc,
  (length fs < i + length ds)%nat → ds ≠ [] →
  mixer_loop (VList (SFloat <$> fs)) i ds acc = Raise IndexError.
Proof.
  induction ds as [|d ds IH]; intros i acc Hlen Hne; [done|]. simpl.
  rewrite list_lookup_fmap.
  destruct (fs !! i) as [f|] eqn:Hf; simpl; [|done].
  apply lookup_lt_Some in Hf.
  apply IH; [simpl in Hlen; lia|].
  intros ->. simpl in Hlen. lia.
Qed.

Lemma mixer_floats_ok ds (fs : list Qc) :
  (length ds ≤ length fs)%nat →
  mixer ds (VList (SFloat <$> fs)) = Ok (mix_of (zip_with int_budget fs ds)).
Proof.
  intros Hlen. unfold mixer. rewrite mixer_loop_ok by (simpl; lia). simpl.
  by rewrite drop_0.
Qed.

Lemma mixer_floats_short ds (fs : list Qc) :
  (length fs < length ds)%nat →
  mixer ds (VList (SFloat <$> fs)) = Raise IndexError.
Proof.
  intros Hlen. unfold mixer. rewrite mixer_loop_short; [done|simpl; lia|].
  intros ->. simpl in Hlen. lia.
Qed.

(** On a non-negative float [int] is [floor]. *)
Lemma py_int_floor (x : Qc) : (0 ≤ x)%Qc → py_int x = Qfloor x.
Proof.
  intros Hx. unfold py_int, Qfloor. destruct x as [[n d] Hc]. simpl.
  apply Z.quot_div_nonneg; [|lia].
  unfold Qcle, Qle in Hx. simpl in Hx. lia.
Qed.

Lemma Qc_of_Z_nonneg (z : Z) : 0 ≤ z → (0 ≤ Qc_of_Z z)%Qc.
Proof. intros Hz. rewrite <- Z2Qc_inj_0. exact (proj1 (Z2Qc_inj_le 0 z) Hz). Qed.

Lemma int_budget_floor f d : (0 ≤ f)%Qc → int_budget f d = floor_budget f d.
Proof.
  intros Hf. apply py_int_floor.
  rewrite <- (Qcmult_0_l (Qc_of_Z (Z.of_N (ds_len d)))).
  apply Qcmult_le_compat_r; [done|]. apply Qc_of_Z_nonneg. lia.
Qed.

Lemma zip_with_budget_floor fs : ∀ ds,
  Forall (λ f, 0 < f ∧ f ≤ 1)%Qc fs →
  zip_with int_budget fs ds = zip_with floor_budget fs ds.
Proof.
  induction fs as [|f fs IH]; intros ds Hfs; [done|].
  destruct ds as [|d ds]; [done|]. simpl.
  inversion Hfs as [|? ? [Hf _] Hrest]; subst.
  rewrite int_budget_floor by by apply Qclt_le_weak.
  f_equal. by apply IH.
Qed.

Lemma np_sum_finite (qs : list Qc) (a : Qc) :
  fold_left np_add (Finite <$> qs) (Finite a) = Finite (a + foldr Qcplus 0 qs)%Qc.
Proof.
  revert a. induction qs as [|q qs IH]; intros a; csimpl.
  - f_equal. ring.
  - rewrite IH. f_equal. ring.
Qed.

Lemma sum_quotients (c : Qc) (ns : list Z) :
  (foldr Qcplus 0 ((λ n_i, Qc_of_Z n_i / c) <$> ns) = Qc_of_Z (sumZ ns) / c)%Qc.
Proof.
  induction ns as [|n ns IH]; csimpl.
  - unfold Qcdiv. rewrite Z2Qc_inj_0. ring.
  - rewrite IH, Z2Qc_inj_add. unfold Qcdiv. ring.
Qed.

Lemma np_div_finite n d : d ≠ 0 → np_div n d = Finite (Qc_of_Z n / Qc_of_Z d).
Proof. intros Hd. unfold np_div. by rewrite decide_False. Qed.

Lemma weights_sum_one (ns : list Z) :
  sumZ ns ≠ 0 →
  weights (mix_of ns) = (λ n_i, Finite (Qc_of_Z n_i / Qc_of_Z (sumZ ns))) <$> ns ∧
  np_sum (weights (mix_of ns)) = Finite 1.
Proof.
  intros HN. simpl.
  assert (Hw : (λ n_i, np_div n_i (sumZ ns)) <$> ns
               = Finite <$> ((λ n_i, Qc_of_Z n_i / Qc_of_Z (sumZ ns))%Qc <$> ns)).
  { rewrite <- list_fmap_compose. apply list_fmap_ext. intros _ n _. simpl.
    by apply np_div_finite. }
  split.
  - rewrite Hw. by rewrite <- list_fmap_compose.
  - rewrite Hw. unfold np_sum. rewrite np_sum_finite, sum_quotients.
    f_equal. rewrite Qcplus_0_l. apply Qcmult_inv_r.
    rewrite <- Z2Qc_inj_0. intros Heq. by apply Z2Qc_inj in Heq.
Qed.

Lemma np_div_zero n : np_div n 0 = NaN ∨ ∃ s, np_div n 0 = Inf s.
Proof.
  unfold np_div. simpl. destruct (decide (n = 0)); [by left | right; eauto].
Qed.

Lemma zip_with_take_datasets {A B C} (f : A → B → C) : ∀ (l : list A) (k : list B),
  zip_with f (take (length k) l) k = zip_with f l k.
Proof.
  induction l as [|x l IH]; intros [|y k]; simpl; try done. by rewrite IH.
Qed.

Lemma zero_budgets : ∀ (fs : list Qc) (ds : list Dataset),
  Forall2 (λ f d, f = 0%Qc ∨ ds_len d = 0%N) fs ds →
  Forall (λ n, n = 0) (zip_with int_budget fs ds).
Proof.
  induction 1 as [|f d fs ds Hfd _ IH]; simpl; constructor; [|done].
  destruct Hfd as [->|Hd].
  - unfold int_budget. by rewrite Qcmult_0_l.
  - unfold int_budget. rewrite Hd. simpl.
    replace (Qc_of_Z 0) with 0%Qc by (by apply Qc_is_canon).
    by rewrite Qcmult_0_r.
Qed.

Lemma sumZ_zeros (ns : list Z) : Forall (λ n, n = 0) ns → sumZ ns = 0.
Proof. induction 1 as [|n ns -> _ IH]; [done|]. unfold sumZ in *. simpl. lia. Qed.

(** C3 fails as stated: a surplus fraction, an empty dataset and a zero
    fraction are each accepted, the last two with a total budget of 0. *)
Lemma mixer_accepts_surplus_and_zero_budget :
  mixer [a_dataset 10; a_dataset 10]
        (VList [SFloat (fl 1 1); SFloat (fl 1 2); SFloat (fl 3 10)])
  = Ok {| dataset_samples_list := [10; 5]; num_samples := 15;
          weights := [Finite (fl 2 3); Finite (fl 1 3)] |} ∧
  mixer [a_dataset 0] (VList [SFloat (fl 1 1)])
  = Ok {| dataset_samples_list := [0]; num_samples := 0; weights := [NaN] |} ∧
  mixer [a_dataset 10] (VList [SFloat (fl 0 1)])
  = Ok {| dataset_samples_list := [0]; num_samples := 0; weights := [NaN] |}.
Proof.
  split; [|split]; try reflexivity. qc_eval.
Qed.

(** ** Further properties of the mixer *)

Lemma int_budget_bounds f d :
  (0 ≤ f)%Qc → (f ≤ 1)%Qc → 0 ≤ int_budget f d ≤ Z.of_N (ds_len d).
Proof.
  intros H0 H1. rewrite int_budget_floor by done. unfold floor_budget.
  set (L := Qc_of_Z (Z.of_N (ds_len d))).
  assert (HL : (0 ≤ L)%Qc) by (apply Qc_of_Z_nonneg; lia).
  assert (Hlo : (0 ≤ f * L)%Qc).
  { rewrite <- (Qcmult_0_l L). by apply Qcmult_le_compat_r. }
  assert (Hhi : (f * L ≤ L)%Qc).
  { rewrite <- (Qcmult_1_l L) at 2. by apply Qcmult_le_compat_r. }
  split.
  - change 0 with (Qfloor (inject_Z 0)). rewrite Qfloor_Z.
    rewrite <- (Qfloor_Z 0). apply Qfloor_resp_le. exact Hlo.
  - rewrite <- (Qfloor_Z (Z.of_N (ds_len d))). apply Qfloor_resp_le. exact Hhi.
Qed.





Lemma Forall2_budget_le_total (ns : list Z) :
  Forall (λ n, 0 ≤ n) ns → Forall (λ n, n ≤ sumZ ns) ns.
Proof.
  induction 1 as [|n ns Hn Hns IH]; [constructor|].
  unfold sumZ in *. simpl. constructor.
  - assert (0 ≤ foldr Z.add 0 ns); [|lia].
    clear IH. induction Hns; simpl; lia.
  - eapply Forall_impl; [exact IH|]. simpl. intros. lia.
Qed.

(** X4: with one fraction between 0 and 1 for each dataset and a positive
    total budget, every weight is a number between 0 and 1, and a dataset
    whose fraction is 0 gets the budget 0 and the weight 0. *)
Theorem mixer_weights_in_unit_interval (ds : list Dataset) (fs : list Qc) :
  length fs = length ds →
  Forall (λ f, 0 ≤ f ∧ f ≤ 1)%Qc fs →
  ∃ m,
    mixer ds (VList (SFloat <$> fs)) = Ok m ∧
    (0 < num_samples m →
     ∀ i f, fs !! i = Some f →
       ∃ n q, dataset_samples_list m !! i = Some n ∧
              weights m !! i = Some (Finite q) ∧
              (0 ≤ q)%Qc ∧ (q ≤ 1)%Qc ∧
              (f = 0%Qc → n = 0 ∧ q = 0%Qc)).
Proof.
  intros Hlen Hfs. eexists. split; [apply mixer_floats_ok; lia|].
  unfold mix_of. cbn [dataset_samples_list weights num_samples].
  intros HN i f Hf.
  set (ns := zip_with int_budget fs ds) in *.
  destruct (lookup_lt_is_Some_2 ds i) as [d Hd].
  { rewrite <- Hlen. by eapply lookup_lt_Some. }
  assert (Hn : ns !! i = Some (int_budget f d)).
  { unfold ns. rewrite lookup_zip_with, Hf. simpl. by rewrite Hd. }
  assert (Hnonneg : Forall (λ n, 0 ≤ n) ns).
  { unfold ns. clear -Hfs. revert ds.
    induction Hfs as [|f fs [Hf0 Hf1] _ IH]; intros [|d ds]; simpl; try constructor.
    - by apply int_budget_bounds.
    - apply IH. }
  pose proof (Forall2_budget_le_total ns Hnonneg) as Hle.
  rewrite Forall_lookup in Hnonneg, Hle.
  specialize (Hnonneg i _ Hn). specialize (Hle i _ Hn).
  exists (int_budget f d), (Qc_of_Z (int_budget f d) / Qc_of_Z (sumZ ns))%Qc.
  split; [done|]. split.
  { rewrite list_lookup_fmap, Hn. simpl. by rewrite np_div_finite by lia. }
  assert (Hpos : (0 < Qc_of_Z (sumZ ns))%Qc).
  { rewrite <- Z2Qc_inj_0. exact (proj1 (Z2Qc_inj_lt 0 _) HN). }
  assert (Hinv : (0 < / Qc_of_Z (sumZ ns))%Qc).
  { apply Qcinv_pos in Hpos. exact Hpos. }
  split; [|split].
  - unfold Qcdiv. rewrite <- (Qcmult_0_l (/ Qc_of_Z (sumZ ns))).
    apply Qcmult_le_compat_r; [by apply Qc_of_Z_nonneg | by apply Qclt_le_weak].
  - unfold Qcdiv.
    rewrite <- (Qcmult_inv_r (Qc_of_Z (sumZ ns)))
      by (intros Heq; rewrite Heq in Hpos; by apply Qclt_not_eq in Hpos).
    apply Qcmult_le_compat_r; [|by apply Qclt_le_weak].
    exact (proj1 (Z2Qc_inj_le _ _) Hle).
  - intros ->. assert (Hz : int_budget 0%Qc d = 0).
    { unfold int_budget. by rewrite Qcmult_0_l. }
    rewrite Hz. split; [done|]. rewrite Z2Qc_inj_0. unfold Qcdiv. ring.
Qed.

Lemma mixer_weights_in_unit_interval_witness :
  ∃ m,
    mixer [a_dataset 1000; a_dataset 500] (VList (SFloat <$> [fl 1 1; fl 0 1])) = Ok m ∧
    dataset_samples_list m !! 1%nat = Some 0 ∧
    ∃ q, weights m !! 1%nat = Some (Finite q) ∧ q = 0%Qc.
Proof.
  destruct (mixer_weights_in_unit_interval
              [a_dataset 1000; a_dataset 500] [fl 1 1; fl 0 1] eq_refl)
    as (m & Hm & Hw).
  { repeat constructor; discriminate. }
  assert (HN : 0 < num_samples m).
  { change [SFloat (fl 1 1); SFloat (fl 0 1)] with (SFloat <$> [fl 1 1; fl 0 1]) in Hm.
    vm_compute in Hm. injection Hm as <-. reflexivity. }
  destruct (Hw HN 1%nat (fl 0 1) eq_refl) as (n & q & Hn & Hq & _ & _ & Hzero).
  destruct Hzero as [-> ->]; [by apply Qc_is_canon|].
  exists m. split; [exact Hm|]. split; [exact Hn|]. by exists 0%Qc.
Defined.

End MixerFacts.


(** * The mixer in double precision *)

Section DoubleMixerFacts.
Import Config Train.

Variable int_of_repeated : string → Z → Result Z.
Variable divide_outside_int64 : list Z → Z → Result (list NpFloat).
















End DoubleMixerFacts.

Section DoubleMixerRuns.
Import Config Train.



End DoubleMixerRuns.


(** * Properties of the cosine schedule *)

Section ScheduleFacts.
Local Open Scope R_scope.

Lemma half_cos_bounds (t : R) : 0 <= (1 + cos t) / 2 <= 1.
Proof. pose proof (COS_bound t). lra. Qed.

(** X5: for a final ratio [lrf] between 0 and 1 the schedule factor stays
    between [lrf] and 1 at every step, so a non-negative initial rate is
    never exceeded and the rate never drops below [lr0 * lrf]. *)
Theorem schedule_bounds (lr0 end_epoch lrf : R) (epoch : Z) :
  0 <= lrf <= 1 → 0 <= lr0 →
  lrf <= Schedule.lf end_epoch lrf (IZR epoch) <= 1 ∧
  lr0 * lrf <= Schedule.lr lr0 end_epoch lrf epoch <= lr0.
Proof.
  intros Hlrf Hlr0. unfold Schedule.lr, Schedule.lf.
  pose proof (half_cos_bounds (IZR epoch * PI / end_epoch)) as Hc.
  set (c := (1 + cos (IZR epoch * PI / end_epoch)) / 2) in *.
  assert (H1 : 0 <= c * (1 - lrf)) by (apply Rmult_le_pos; lra).
  assert (H2 : 0 <= (1 - c) * (1 - lrf)) by (apply Rmult_le_pos; lra).
  assert (H3 : lrf <= c * (1 - lrf) + lrf <= 1) by lra.
  split; [exact H3|].
  split; [apply Rmult_le_compat_l; lra|].
  rewrite <- (Rmult_1_r lr0) at 2. apply Rmult_le_compat_l; lra.
Qed.

Lemma schedule_bounds_witness :
  1 / 2 <= Schedule.lf 200 (1 / 2) (IZR 37) <= 1 ∧
  1 / 1000 * (1 / 2) <= Schedule.lr (1 / 1000) 200 (1 / 2) 37 <= 1 / 1000.
Proof. apply schedule_bounds; lra. Defined.

(** X6: over the epochs from 0 to [END_EPOCH] the rate never rises: for
    [END_EPOCH > 0], [lrf <= 1] and a non-negative initial rate, a later step
    has a rate no higher than an earlier one. *)
Theorem schedule_decreasing (lr0 lrf : R) (end_epoch i j : Z) :
  (0 < end_epoch)%Z → lrf <= 1 → 0 <= lr0 →
  (0 ≤ i)%Z → (i ≤ j)%Z → (j ≤ end_epoch)%Z →
  Schedule.lr lr0 (IZR end_epoch) lrf j <= Schedule.lr lr0 (IZR end_epoch) lrf i.
Proof.
  intros Hend Hlrf Hlr0 Hi Hij Hj. unfold Schedule.lr, Schedule.lf.
  assert (He : 0 < IZR end_epoch) by by apply IZR_lt.
  assert (Hscale : ∀ k : Z, (0 ≤ k)%Z → (k ≤ end_epoch)%Z →
            0 <= IZR k * PI / IZR end_epoch <= PI).
  { intros k Hk0 Hk1. apply IZR_le in Hk0, Hk1. pose proof PI_RGT_0 as Hpi.
    split.
    - apply Rmult_le_pos; [nra | apply Rlt_le, Rinv_0_lt_compat, He].
    - apply (Rmult_le_reg_r (IZR end_epoch)); [exact He|].
      unfold Rdiv. rewrite Rmult_assoc, Rinv_l by lra. nra. }
  assert (Hcos : cos (IZR j * PI / IZR end_epoch) <= cos (IZR i * PI / IZR end_epoch)).
  { apply cos_decr_1; try apply Hscale; try lia.
    apply IZR_le in Hij. pose proof PI_RGT_0 as Hpi.
    unfold Rdiv. apply Rmult_le_compat_r; [apply Rlt_le, Rinv_0_lt_compat, He | nra]. }
  apply Rmult_le_compat_l; [exact Hlr0|].
  apply Rplus_le_compat_r, Rmult_le_compat_r; lra.
Qed.

Lemma schedule_decreasing_witness :
  Schedule.lr (1 / 1000) (IZR 200) (1 / 2) 150
  <= Schedule.lr (1 / 1000) (IZR 200) (1 / 2) 50.
Proof. apply schedule_decreasing; (lra || lia). Defined.

End ScheduleFacts.

(** * Properties of [main] *)

Section RunFacts.
Import Config Train.

Context {Params OptState : Type} `{!Collaborators Params OptState}.

Local Abbreviation Run := (@Run Params OptState).
Local Abbreviation World := (World Params OptState).

(** ** Stepping through the run monad *)

Lemma bind_ok {A B} (m : Run A) (f : A → Run B) (w w' : World) (b : B) :
  (m ≫= f) w = (Ok b, w') → ∃ a w1, m w = (Ok a, w1) ∧ f a w1 = (Ok b, w').
Proof.
  unfold mbind, Run_bind. destruct (m w) as [[a|e] w1]; [eauto | discriminate].
Qed.

Lemma bind_step {A B} (m : Run A) (f : A → Run B) (w w1 : World) (a : A) :
  m w = (Ok a, w1) → (m ≫= f) w = f a w1.
Proof. unfold mbind, Run_bind. by intros ->. Qed.

Lemma bind_raise {A B} (m : Run A) (f : A → Run B) (w w1 : World) (e : PyError) :
  m w = (Raise e, w1) → (m ≫= f) w = (Raise e, w1).
Proof. unfold mbind, Run_bind. by intros ->. Qed.

Lemma lift_ok {A} (r : Result A) (w w' : World) (a : A) :
  lift r w = (Ok a, w') → r = Ok a ∧ w' = w.
Proof. unfold lift. by intros [= -> ->]. Qed.

Lemma result_bind_ok {A B} (r : Result A) (f : A → Result B) (b : B) :
  r ≫= f = Ok b → ∃ a, r = Ok a ∧ f a = Ok b.
Proof. destruct r as [a|e]; simpl; [eauto | discriminate]. Qed.

Lemma quiet_ret {A} (P : Event Params OptState → bool) (a : A) : quiet P (mret a).
Proof. intros w. split; [done|]. exists []. by rewrite app_nil_r. Qed.

Lemma quiet_lift {A} (P : Event Params OptState → bool) (r : Result A) :
  quiet P (lift r).
Proof. intros w. split; [done|]. exists []. by rewrite app_nil_r. Qed.

Lemma quiet_emit (P : Event Params OptState → bool) e :
  P e = true → quiet P (emit e).
Proof. intros He w. split; [done|]. exists [e]. simpl. by rewrite He. Qed.

Lemma quiet_bind {A B} (P : Event Params OptState → bool) (m : Run A) (f : A → Run B) :
  quiet P m → (∀ a, quiet P (f a)) → quiet P (m ≫= f).
Proof.
  intros Hm Hf w. unfold mbind, Run_bind.
  destruct (Hm w) as [Hd (t & Ht & HP)].
  destruct (m w) as [[a|e] w1]; simpl in *.
  - destruct (Hf a w1) as [Hd' (t' & Ht' & HP')].
    split; [congruence|]. exists (t ++ t').
    rewrite Ht', Ht, app_assoc, forallb_app, HP, HP'. done.
  - split; [done|]. by exists t.
Qed.

Lemma quiet_torch_load (P : Event Params OptState → bool) path :
  quiet P (torch_load path).
Proof.
  intros w. unfold torch_load. destruct (disk w !! path); simpl;
    (split; [done|]; exists []; by rewrite app_nil_r).
Qed.

Ltac quiet_tac :=
  repeat first
    [ apply quiet_ret | apply quiet_lift | apply quiet_torch_load
    | apply quiet_emit; reflexivity
    | apply quiet_bind; [|intros ?]
    | match goal with
      | |- quiet _ (if ?b then _ else _) => destruct b
      | |- quiet _ (match ?x with _ => _ end) => destruct x
      end ].

Lemma quiet_initial_model args : quiet is_setup_event (initial_model args).
Proof. unfold initial_model, load_state_dict. quiet_tac. Qed.

Lemma quiet_select_datasets cfg : quiet is_setup_event (select_datasets cfg).
Proof. unfold select_datasets, new_dataset. quiet_tac. Qed.

Ltac quiet_setup_tac :=
  repeat first
    [ apply quiet_initial_model | apply quiet_select_datasets
    | apply quiet_lift | apply quiet_ret
    | apply quiet_emit; reflexivity
    | apply quiet_bind; [|intros ?]
    | match goal with |- quiet _ (let '(_, _) := ?x in _) => destruct x end ].

(** The set-up part writes nothing and emits set-up events only. *)
Lemma quiet_setup cfg args : quiet is_setup_event (setup cfg args).
Proof. unfold setup. quiet_setup_tac. Qed.

(** The first thing set-up does, once [LOG_DIR] is read, is to create the
    logger. *)
Lemma setup_creates_logger cfg args log_dir (w : World) :
  read cfg ["LOG_DIR"] = Ok log_dir →
  ∃ t, trace (setup cfg args w).2 = trace w ++ EvCreateLogger log_dir :: t.
Proof.
  intros Hlog. unfold setup.
  erewrite bind_step by (unfold lift; rewrite Hlog; reflexivity).
  erewrite bind_step by reflexivity.
  match goal with
  | |- ∃ t, trace (?m ?w1).2 = _ =>
      assert (Hq : quiet is_setup_event m) by quiet_setup_tac;
      destruct (Hq w1) as [_ (t & Ht & _)]
  end.
  exists t. rewrite Ht. simpl. by rewrite <- app_assoc.
Qed.

Lemma emit_ok e (w w' : World) u :
  emit e w = (Ok u, w') → w' = {| disk := disk w; trace := trace w ++ [e] |}.
Proof. unfold emit. by intros [= _ <-]. Qed.

Ltac run_inv H :=
  repeat
    (cbv beta in H;
     match type of H with
     | (emit _ ≫= _) _ = (Ok _, _) =>
         let u := fresh "u" in let w := fresh "w" in let Hm := fresh "Hm" in
         apply bind_ok in H as (u & w & Hm & H); apply emit_ok in Hm; subst w
     | (lift _ ≫= _) _ = (Ok _, _) =>
         let a := fresh "a" in let w := fresh "w" in let Hm := fresh "Hm" in
         apply bind_ok in H as (a & w & Hm & H);
         apply lift_ok in Hm as [Hm ->]
     | (_ ≫= _) _ = (Ok _, _) =>
         let a := fresh "a" in let w := fresh "w" in let Hm := fresh "Hm" in
         apply bind_ok in H as (a & w & Hm & H)
     | (let '(_, _) := ?x in _) _ = (Ok _, _) => destruct x
     end).

Lemma setup_ok cfg args (w w1 : World) su :
  setup cfg args w = (Ok su, w1) →
  lf_evaluates cfg = Ok () ∧
  read cfg ["TRAIN"; "BEGIN_EPOCH"] = Ok (su_begin_epoch su) ∧
  (∃ log_dir, read cfg ["LOG_DIR"] = Ok log_dir ∧
              su_output_dir su = final_output_dir cfg log_dir) ∧
  writer_dict (su_learner su) = {| train_global_steps := 0; valid_global_steps := 0 |} ∧
  optimizer (su_learner su) = get_optimizer cfg (model (su_learner su)) ∧
  (∃ w0 w0', disk w0 = disk w ∧
             initial_model args w0 = (Ok (model (su_learner su)), w0')) ∧
  (∃ ds fr w2 w3, select_datasets cfg w2 = (Ok (ds, fr), w3) ∧
                  mixer ds fr = Ok (su_mix su)).
Proof.
  intros H. unfold setup in H. run_inv H.
  unfold mret, Run_ret in H. injection H as <- <-. simpl.
  match goal with Hlf : lf_evaluates cfg = Ok ?u |- _ => destruct u end.
  split; [done|]. split; [done|]. split; [eauto|].
  split; [done|]. split; [done|]. split.
  - eexists _, _. split; [|eassumption]. done.
  - eexists _, _, _, _. split; eassumption.
Qed.

(** ** The epoch loop *)

Lemma lf_evaluates_end_epoch cfg :
  lf_evaluates cfg = Ok () → ∃ v, read cfg ["TRAIN"; "END_EPOCH"] = Ok v.
Proof.
  unfold lf_evaluates. intros H.
  apply result_bind_ok in H as (q & H & _).
  apply result_bind_ok in H as (v & H & _). eauto.
Qed.

Lemma validation_due_ok cfg name epoch :
  lf_evaluates cfg = Ok () → loop_reads cfg name →
  validation_due cfg epoch = Ok (due cfg epoch).
Proof.
  intros Hlf [(vf & Hvf & Hne) _].
  destruct (lf_evaluates_end_epoch cfg Hlf) as [v Hv].
  assert (∃ b, validation_due cfg epoch = Ok b) as [b Hb].
  { unfold validation_due. rewrite Hvf. simpl.
    unfold num_mod. rewrite decide_False by done. simpl.
    case_decide; [eauto|]. rewrite Hv. simpl. eauto. }
  unfold due. by rewrite Hb.
Qed.

Lemma epoch_body_run cfg su name epoch st (w : World) :
  lf_evaluates cfg = Ok () → loop_reads cfg name →
  epoch_body cfg su epoch st w
  = (Ok {| learner := train_pass cfg su (learner st) epoch;
           last_epoch := last_epoch st + 1 |},
     body_world cfg su name epoch (train_pass cfg su (learner st) epoch) w).
Proof.
  intros Hlf Hreads.
  pose proof (validation_due_ok cfg name epoch Hlf Hreads) as Hdue.
  destruct Hreads as [_ Hname].
  unfold epoch_body, body_world, body_trace, when, save_checkpoint, torch_save,
    emit, lift, checkpoint_event, checkpoint_path, checkpoint_of, train_pass.
  unfold mbind, Run_bind, mret, Run_ret.
  rewrite Hlf, Hdue, Hname.
  destruct (bool_decide (global_rank ≠ -1)), (due cfg epoch),
    (bool_decide (epoch mod 5 = 0)); simpl;
    (f_equal; f_equal; by rewrite <- ?app_assoc).
Qed.

Lemma epoch_loop_run cfg su name :
  lf_evaluates cfg = Ok () → loop_reads cfg name →
  ∀ epochs st (w : World),
    epoch_loop cfg su epochs st w
    = (Ok {| learner := fold_left (train_pass cfg su) epochs (learner st);
             last_epoch := last_epoch st + Z.of_nat (length epochs) |},
       loop_world cfg su name epochs (learner st) w).
Proof.
  intros Hlf Hreads. induction epochs as [|epoch rest IH]; intros st w.
  - simpl. unfold mret, Run_ret. rewrite Z.add_0_r. by destruct st.
  - cbn [epoch_loop]. erewrite bind_step by by apply epoch_body_run.
    rewrite IH. cbn [learner last_epoch fold_left loop_world length].
    by replace (last_epoch st + 1 + Z.of_nat (length rest))
      with (last_epoch st + Z.of_nat (S (length rest))) by lia.
Qed.

Lemma loop_world_trace cfg su name : ∀ epochs l (w : World),
  trace (loop_world cfg su name epochs l w) = trace w ++ loop_trace cfg su name epochs l.
Proof.
  induction epochs as [|epoch rest IH]; intros l w; simpl.
  - by rewrite app_nil_r.
  - rewrite IH. simpl. by rewrite <- app_assoc.
Qed.

(** ** [range] *)

Lemma py_range_nil a b : b ≤ a → py_range a b = [].
Proof. intros H. unfold py_range. by replace (Z.to_nat (b - a)) with 0%nat by lia. Qed.

Lemma py_range_cons a b : a < b → py_range a b = a :: py_range (a + 1) b.
Proof.
  intros H. unfold py_range.
  replace (Z.to_nat (b - a)) with (S (Z.to_nat (b - (a + 1)))) by lia.
  cbn [seq List.map]. f_equal; [lia|].
  rewrite <- seq_shift, List.map_map.
  apply List.map_ext. intros i. lia.
Qed.

Lemma py_range_length a b : Z.of_nat (length (py_range a b)) = Z.max 0 (b - a).
Proof. unfold py_range. rewrite length_map, length_seq. lia. Qed.

Lemma py_range_ge a b x : x ∈ py_range a b → a ≤ x.
Proof.
  unfold py_range. rewrite list_elem_of_In, in_map_iff.
  intros (i & <- & _). lia.
Qed.

(** ** What the loop leaves in the trace *)

Lemma trained_epochs_app (t1 t2 : list (Event Params OptState)) :
  trained_epochs (t1 ++ t2) = trained_epochs t1 ++ trained_epochs t2.
Proof. apply omap_app. Qed.

Lemma checkpoint_epochs_app (t1 t2 : list (Event Params OptState)) :
  checkpoint_epochs (t1 ++ t2) = checkpoint_epochs t1 ++ checkpoint_epochs t2.
Proof. apply omap_app. Qed.

Lemma body_trace_saves cfg su name epoch l :
  List.filter is_save (body_trace cfg su name epoch l)
  = if bool_decide (epoch mod 5 = 0) then [checkpoint_event su name epoch l] else [].
Proof.
  unfold body_trace.
  by destruct (bool_decide (global_rank ≠ -1)), (due cfg epoch),
    (bool_decide (epoch mod 5 = 0)).
Qed.

Lemma body_trace_lr_steps cfg su name epoch l :
  List.filter is_lr_step (body_trace cfg su name epoch l) = [EvLrStep].
Proof.
  unfold body_trace.
  by destruct (bool_decide (global_rank ≠ -1)), (due cfg epoch),
    (bool_decide (epoch mod 5 = 0)).
Qed.

Lemma body_trace_trained cfg su name epoch l :
  trained_epochs (body_trace cfg su name epoch l) = [epoch].
Proof.
  unfold body_trace.
  by destruct (bool_decide (global_rank ≠ -1)), (due cfg epoch),
    (bool_decide (epoch mod 5 = 0)).
Qed.

Lemma loop_trace_trained cfg su name : ∀ epochs l,
  trained_epochs (loop_trace cfg su name epochs l) = epochs.
Proof.
  induction epochs as [|epoch rest IH]; intros l; [done|].
  cbn [loop_trace]. by rewrite trained_epochs_app, body_trace_trained, IH.
Qed.

Lemma loop_trace_lr_steps cfg su name : ∀ epochs l,
  length (List.filter is_lr_step (loop_trace cfg su name epochs l)) = length epochs.
Proof.
  induction epochs as [|epoch rest IH]; intros l; [done|].
  cbn [loop_trace]. rewrite List.filter_app, body_trace_lr_steps. simpl. by rewrite IH.
Qed.

Lemma learner_after_cons cfg su l a e :
  a ≤ e →
  learner_after cfg su l a e
  = learner_after cfg su (train_pass cfg su l a) (a + 1) e.
Proof.
  intros H. unfold learner_after. by rewrite (py_range_cons a (e + 1)) by lia.
Qed.

(** The saves of a loop over [a, a+1, ...]: one checkpoint for every
    multiple of five, holding the learner as trained up to that epoch. *)
Lemma loop_trace_saves cfg su name : ∀ (n : nat) a l,
  List.filter is_save (loop_trace cfg su name (py_range a (a + Z.of_nat n)) l)
  = (λ e, checkpoint_event su name e (learner_after cfg su l a e))
      <$> List.filter (λ e, bool_decide (e mod 5 = 0)) (py_range a (a + Z.of_nat n)).
Proof.
  induction n as [|n IH]; intros a l.
  - by rewrite py_range_nil by lia.
  - rewrite py_range_cons by lia.
    replace (a + Z.of_nat (S n)) with (a + 1 + Z.of_nat n) by lia.
    cbn [loop_trace List.filter]. rewrite List.filter_app, body_trace_saves, IH.
    assert (Htail :
      (λ e, checkpoint_event su name e
              (learner_after cfg su (train_pass cfg su l a) (a + 1) e))
        <$> List.filter (λ e, bool_decide (e mod 5 = 0)) (py_range (a + 1) (a + 1 + Z.of_nat n))
      = (λ e, checkpoint_event su name e (learner_after cfg su l a e))
        <$> List.filter (λ e, bool_decide (e mod 5 = 0)) (py_range (a + 1) (a + 1 + Z.of_nat n))).
    { apply list_fmap_ext. intros i e He.
      apply list_elem_of_lookup_2, list_elem_of_In, List.filter_In in He as [He _].
      apply list_elem_of_In, py_range_ge in He.
      by rewrite (learner_after_cons cfg su l a e) by lia. }
    rewrite Htail.
    destruct (bool_decide (a mod 5 = 0)); [|done].
    csimpl. f_equal.
    unfold learner_after. rewrite (py_range_cons a (a + 1)) by lia.
    by rewrite py_range_nil by lia.
Qed.

(** ** Traces only grow *)

Lemma quiet_extends {A} (P : Event Params OptState → bool) (m : Run A) :
  quiet P m → extends m.
Proof. intros H w. destruct (H w) as [_ (t & Ht & _)]. eauto. Qed.

Lemma extends_bind {A B} (m : Run A) (f : A → Run B) :
  extends m → (∀ a, extends (f a)) → extends (m ≫= f).
Proof.
  intros Hm Hf w. unfold mbind, Run_bind.
  destruct (Hm w) as [t Ht]. destruct (m w) as [[a|e] w1]; simpl in *.
  - destruct (Hf a w1) as [t' Ht']. exists (t ++ t'). by rewrite Ht', Ht, app_assoc.
  - eauto.
Qed.

Lemma extends_torch_save obj path : extends (torch_save obj path : Run ()).
Proof. intros w. exists []. simpl. by rewrite app_nil_r. Qed.

Ltac extends_tac :=
  cbv zeta;
  repeat first
    [ apply extends_torch_save
    | apply (quiet_extends (λ _, true)); quiet_tac; fail
    | apply extends_bind; [|intros ?]
    | match goal with |- extends (if ?b then _ else _) => destruct b end ].

Lemma extends_epoch_body cfg su epoch st : extends (epoch_body cfg su epoch st).
Proof. unfold epoch_body, when, save_checkpoint. extends_tac. Qed.

Lemma extends_epoch_loop cfg su : ∀ epochs st, extends (epoch_loop cfg su epochs st).
Proof.
  induction epochs as [|epoch rest IH]; intros st; simpl.
  - apply (quiet_extends (λ _, true)), quiet_ret.
  - apply extends_bind; [apply extends_epoch_body | intros ?; apply IH].
Qed.

Lemma extends_training cfg su : extends (training cfg su).
Proof.
  unfold training, finish.
  apply extends_bind; [apply (quiet_extends (λ _, true)), quiet_lift | intros epochs].
  apply extends_bind; [apply extends_epoch_loop | intros st].
  extends_tac.
Qed.

Lemma proceed_creates_logger cfg args (w : World) :
  str_truthy (logDir args) = true →
  ∃ t, trace (proceed cfg args w).2
       = trace w ++ EvCreateLogger (VStr (logDir args)) :: t.
Proof.
  intros Hlog.
  destruct (update_config_log_dir cfg args Hlog) as (cfg' & Hcfg' & Hread).
  unfold proceed.
  erewrite bind_step by (unfold lift; rewrite Hcfg'; reflexivity).
  destruct (setup_creates_logger cfg' args (VStr (logDir args)) w) as [t Ht].
  { unfold read. by rewrite Hread. }
  unfold mbind, Run_bind.
  destruct (setup cfg' args w) as [[su|e] w1]; simpl in Ht; [|eauto].
  destruct (extends_training cfg' su w1) as [t' Ht'].
  exists (t ++ t'). rewrite Ht', Ht, <- app_assoc. done.
Qed.

(** ** The whole of [main] *)

Lemma finish_run su st (w : World) :
  finish su st w = (Ok (), finish_world su (learner st) w).
Proof. unfold finish, finish_world, torch_save, emit, mbind, Run_bind. simpl.
  by rewrite <- app_assoc. Qed.

Lemma training_run cfg su name b e (w : World) :
  lf_evaluates cfg = Ok () → loop_reads cfg name →
  as_int (su_begin_epoch su) = Ok b →
  read cfg ["TRAIN"; "END_EPOCH"] ≫= as_int = Ok e →
  training cfg su w
  = (Ok {| learner := learner_after cfg su (su_learner su) (b + 1) e;
           last_epoch := Z.max 0 (e - b) |},
     finish_world su (learner_after cfg su (su_learner su) (b + 1) e)
       (loop_world cfg su name (py_range (b + 1) (e + 1)) (su_learner su) w)).
Proof.
  intros Hlf Hreads Hb He. unfold training, epochs_of.
  rewrite Hb, He. simpl.
  erewrite bind_step by (unfold lift; reflexivity).
  erewrite bind_step by by apply (epoch_loop_run cfg su name).
  erewrite bind_step by apply finish_run.
  unfold mret, Run_ret, learner_after. simpl. repeat f_equal.
  rewrite py_range_length. lia.
Qed.

Lemma training_no_epochs cfg su b e (w : World) :
  as_int (su_begin_epoch su) = Ok b →
  read cfg ["TRAIN"; "END_EPOCH"] ≫= as_int = Ok e →
  e ≤ b →
  training cfg su w
  = (Ok {| learner := su_learner su; last_epoch := 0 |},
     finish_world su (su_learner su) w).
Proof.
  intros Hb He Hle. unfold training, epochs_of.
  rewrite Hb, He. simpl. rewrite py_range_nil by lia.
  erewrite bind_step by (unfold lift; reflexivity).
  cbn [epoch_loop].
  erewrite bind_step by (unfold mret, Run_ret; reflexivity).
  erewrite bind_step by apply finish_run. done.
Qed.

Lemma main_effective args cfg (w : World) :
  effective_config args = Ok cfg →
  main args w = (su ← setup cfg args; training cfg su) w.
Proof.
  unfold effective_config. intros H.
  apply result_bind_ok in H as (cfg0 & H0 & H1).
  unfold main, proceed, lift, mbind, Run_bind. by rewrite H0, H1.
Qed.

Lemma setup_events_no_saves (t : list (Event Params OptState)) :
  forallb is_setup_event t = true →
  List.filter is_save t = [] ∧ checkpoint_epochs t = [] ∧ trained_epochs t = [].
Proof.
  induction t as [|e t IH]; [done|]. simpl.
  intros [He Ht]%andb_prop. destruct (IH Ht) as (IH1 & IH2 & IH3).
  unfold checkpoint_epochs, trained_epochs in *.
  by destruct e; try discriminate; simpl; rewrite ?IH1, ?IH2, ?IH3.
Qed.

Lemma loop_trace_checkpoint_epochs cfg su name : ∀ epochs l,
  checkpoint_epochs (loop_trace cfg su name epochs l)
  = List.filter (λ e, bool_decide (e mod 5 = 0)) epochs.
Proof.
  induction epochs as [|epoch rest IH]; intros l; [done|].
  cbn [loop_trace List.filter]. rewrite checkpoint_epochs_app, IH.
  unfold body_trace.
  by destruct (bool_decide (global_rank ≠ -1)), (due cfg epoch),
    (bool_decide (epoch mod 5 = 0)).
Qed.

Lemma multiples_of_five_to_200 :
  List.filter (λ e, bool_decide (e mod 5 = 0)) (py_range 1 201)
  = (λ i, 5 * i) <$> py_range 1 41.
Proof. by vm_compute. Qed.

(** A run that gets through set-up and whose loop can read what it needs
    completes; its trace is the set-up trace, then the loop's, then the final
    save. *)
Lemma main_run args cfg su name b e (w w1 : World) :
  effective_config args = Ok cfg →
  setup cfg args w = (Ok su, w1) →
  loop_reads cfg name →
  read cfg ["TRAIN"; "BEGIN_EPOCH"] ≫= as_int = Ok b →
  read cfg ["TRAIN"; "END_EPOCH"] ≫= as_int = Ok e →
  ∃ t, forallb is_setup_event t = true ∧
    main args w
    = (Ok {| learner := learner_after cfg su (su_learner su) (b + 1) e;
             last_epoch := Z.max 0 (e - b) |},
       finish_world su (learner_after cfg su (su_learner su) (b + 1) e)
         (loop_world cfg su name (py_range (b + 1) (e + 1)) (su_learner su) w1)) ∧
    trace w1 = trace w ++ t ∧ disk w1 = disk w.
Proof.
  intros Hcfg Hsetup Hreads Hb He.
  destruct (setup_ok _ _ _ _ _ Hsetup) as (Hlf & Hbegin & _).
  destruct (quiet_setup cfg args w) as [Hdisk (t & Ht & HP)].
  rewrite Hsetup in Hdisk, Ht. simpl in Hdisk, Ht.
  exists t. split; [done|]. split; [|done].
  rewrite (main_effective _ _ _ Hcfg), (bind_step _ _ _ _ _ Hsetup).
  apply training_run; try done.
  rewrite Hbegin in Hb. exact Hb.
Qed.

(** ** What a run leaves on the disk *)

Lemma append_assoc (a b c : string) : (a +:+ b) +:+ c = a +:+ (b +:+ c).
Proof.
  induction a as [|x a IH]; [done|].
  change (String x ((a +:+ b) +:+ c) = String x (a +:+ b +:+ c)). by rewrite IH.
Qed.

Lemma append_length (a b : string) :
  String.length (a +:+ b) = (String.length a + String.length b)%nat.
Proof.
  induction a as [|x a IH]; [done|].
  change (S (String.length (a +:+ b)) = S (String.length a + String.length b)).
  by rewrite IH.
Qed.

Lemma append_inj_r (t a b : string) : a +:+ t = b +:+ t → a = b.
Proof.
  revert b. induction a as [|x a IH]; intros [|y b] H.
  - done.
  - apply (f_equal String.length) in H.
    rewrite !append_length in H. simpl in H. lia.
  - apply (f_equal String.length) in H.
    rewrite !append_length in H. simpl in H. lia.
  - change (String x (a +:+ t) = String y (b +:+ t)) in H.
    injection H as -> H. f_equal. by apply IH.
Qed.

(** A relative file name is appended to a prefix that depends on the
    directory alone. *)
Lemma path_join_relative (d : string) :
  ∃ p, ∀ x, String.prefix "/" x = false → path_join d x = p +:+ x.
Proof.
  unfold path_join. destruct (decide (d = "")) as [->|Hd].
  - exists "". intros x ->. done.
  - destruct (decide (String.get (String.length d - 1) d = Some "/"%char)).
    + exists d. by intros x ->.
    + exists (d +:+ "/"). intros x ->. by rewrite append_assoc.
Qed.

Lemma checkpoint_name_relative k : String.prefix "/" (checkpoint_name k) = false.
Proof. reflexivity. Qed.

Lemma checkpoint_path_inj (su : Setup Params OptState) (k k' : Z) :
  checkpoint_path su k = checkpoint_path su k' → k = k'.
Proof.
  unfold checkpoint_path.
  destruct (path_join_relative (su_output_dir su)) as [p Hp].
  rewrite !Hp by apply checkpoint_name_relative.
  intros H%(inj (String.app p)). unfold checkpoint_name in H.
  apply (inj (String.app "epoch-")) in H. apply append_inj_r in H.
  by apply (inj pretty) in H.
Qed.

Lemma final_path_not_checkpoint (su : Setup Params OptState) k :
  final_path su ≠ checkpoint_path su k.
Proof.
  unfold final_path, checkpoint_path.
  destruct (path_join_relative (su_output_dir su)) as [p Hp].
  rewrite (Hp "final_state.pth") by reflexivity.
  rewrite Hp by apply checkpoint_name_relative.
  intros H%(inj (String.app p)). discriminate.
Qed.

Lemma str_truthy_path_join d x :
  String.prefix "/" x = false → str_truthy x = true → str_truthy (path_join d x) = true.
Proof.
  intros Hrel Hx. destruct (path_join_relative d) as [p Hp].
  rewrite Hp by done. destruct p; [done|reflexivity].
Qed.

Lemma loop_world_disk_other cfg su name path : ∀ epochs l (w : World),
  (∀ k, k ∈ epochs → k mod 5 = 0 → path ≠ checkpoint_path su k) →
  disk (loop_world cfg su name epochs l w) !! path = disk w !! path.
Proof.
  induction epochs as [|epoch rest IH]; intros l w Hpath; [done|].
  cbn [loop_world]. rewrite IH by (intros k Hk; apply Hpath; by right).
  unfold body_world. cbn [disk]. case_bool_decide; [|done].
  rewrite lookup_insert_ne; [done|]. apply not_eq_sym, Hpath; [by left | done].
Qed.

Lemma loop_world_disk_checkpoint cfg su name : ∀ (n : nat) a l (w : World) k,
  a ≤ k < a + Z.of_nat n → k mod 5 = 0 →
  disk (loop_world cfg su name (py_range a (a + Z.of_nat n)) l w)
    !! checkpoint_path su k
  = Some (FCheckpoint (checkpoint_of k name (learner_after cfg su l a k))).
Proof.
  induction n as [|n IH]; intros a l w k Hk Hmod; [lia|].
  rewrite py_range_cons by lia.
  replace (a + Z.of_nat (S n)) with (a + 1 + Z.of_nat n) by lia.
  cbn [loop_world].
  destruct (decide (k = a)) as [->|Hne].
  - rewrite loop_world_disk_other.
    + unfold body_world. cbn [disk]. rewrite bool_decide_true by done.
      rewrite lookup_insert_eq. do 3 f_equal.
      unfold learner_after. rewrite (py_range_cons a (a + 1)) by lia.
      by rewrite py_range_nil by lia.
    + intros k Hin%py_range_ge _ Heq%checkpoint_path_inj. lia.
  - rewrite IH by (done || lia).
    by rewrite (learner_after_cons cfg su l a k) by lia.
Qed.

Lemma py_range_elem a b k : k ∈ py_range a b ↔ a ≤ k < b.
Proof.
  unfold py_range. rewrite list_elem_of_In, in_map_iff. split.
  - intros (i & <- & Hi%in_seq). lia.
  - intros Hk. exists (Z.to_nat (k - a)). split; [lia|]. apply in_seq. lia.
Qed.

(** The disk a completed run leaves. *)
Lemma main_run_disk args cfg su name b e (w w1 : World) :
  effective_config args = Ok cfg →
  setup cfg args w = (Ok su, w1) →
  loop_reads cfg name →
  read cfg ["TRAIN"; "BEGIN_EPOCH"] ≫= as_int = Ok b →
  read cfg ["TRAIN"; "END_EPOCH"] ≫= as_int = Ok e →
  ∃ st w',
    main args w = (Ok st, w') ∧
    learner st = learner_after cfg su (su_learner su) (b + 1) e ∧
    (∀ k, b < k ≤ e → k mod 5 = 0 →
       disk w' !! checkpoint_path su k
       = Some (FCheckpoint
                 (checkpoint_of k name (learner_after cfg su (su_learner su) (b + 1) k)))) ∧
    disk w' !! final_path su = Some (FStateDict (model (learner st))) ∧
    (∀ path,
       path ≠ final_path su →
       (∀ k, b < k ≤ e → k mod 5 = 0 → path ≠ checkpoint_path su k) →
       disk w' !! path = disk w !! path).
Proof.
  intros Hcfg Hsetup Hreads Hb He.
  destruct (main_run args cfg su name b e w w1) as (t & HP & Hmain & Ht & Hdisk);
    try done.
  eexists _, _. split; [exact Hmain|].
  unfold finish_world. cbn [disk learner].
  split; [done|]. split; [|split].
  - intros k Hk Hmod.
    rewrite lookup_insert_ne by apply final_path_not_checkpoint.
    destruct (decide (b < e)) as [Hlt|]; [|lia].
    replace (e + 1) with (b + 1 + Z.of_nat (Z.to_nat (e - b))) by lia.
    apply loop_world_disk_checkpoint; [lia | done].
  - by rewrite lookup_insert_eq.
  - intros path Hfinal Hpath.
    rewrite lookup_insert_ne by done.
    rewrite loop_world_disk_other; [by rewrite Hdisk|].
    intros k Hin%py_range_elem Hmod. apply Hpath; [lia | done].
Qed.

(** C5: [main] is decided by [--dataset_type] before anything else happens.
    For [kitti] and [waymo] it goes on with the matching configuration (and,
    given a non-empty [--logDir], creates the logger first); for every other
    value it raises
    [ValueError], leaving the world as it found it: no logger, model,
    optimizer or dataset has been created and nothing has been written. *)
Theorem dataset_type_dispatch (args : Args) (w : World) :
  main args w
  = (if decide (dataset_type args = "kitti") then proceed cfg_kitti args w
     else if decide (dataset_type args = "waymo") then proceed cfg_waymo args w
     else (Raise (ValueError "Unsupported dataset type"), w)) ∧
  (dataset_type args ∈ ["kitti"; "waymo"] →
     str_truthy (logDir args) = true →
     ∃ t, trace (main args w).2
          = trace w ++ EvCreateLogger (VStr (logDir args)) :: t) ∧
  (dataset_type args ∉ ["kitti"; "waymo"] →
     main args w = (Raise (ValueError "Unsupported dataset type"), w)).
Proof.
  assert (Hmain : main args w
    = (if decide (dataset_type args = "kitti") then proceed cfg_kitti args w
       else if decide (dataset_type args = "waymo") then proceed cfg_waymo args w
       else (Raise (ValueError "Unsupported dataset type"), w))).
  { unfold main, select_config, lift, mbind, Run_bind.
    by repeat case_decide. }
  split; [exact Hmain|]. split.
  - intros Hin Hlog.
    assert (∃ cfg, main args w = proceed cfg args w) as [cfg ->].
    { rewrite Hmain. repeat case_decide; eauto.
      rewrite !elem_of_cons in Hin. destruct Hin as [?|[?|[]%elem_of_nil]]; done. }
    by apply proceed_creates_logger.
  - intros Hnot. rewrite !not_elem_of_cons in Hnot. destruct Hnot as (? & ? & _).
    by rewrite Hmain, !decide_False.
Qed.

(** C7: with [BEGIN_EPOCH = 0] and [END_EPOCH = 200], a run that gets through
    set-up (and can read a non-zero [VAL_FREQ] and [MODEL.NAME]) completes,
    and the artifacts it saves are, in order: for each epoch 5, 10, ..., 200
    one checkpoint named [epoch-<epoch>.pth] that holds the epoch, the model
    name and the model and optimizer state as trained up to that epoch; then
    [final_state.pth] holding the model parameters after epoch 200.  Nothing
    else is saved.  The disk afterwards holds each of these checkpoints under
    its name and the final parameters under [final_state.pth]; the file
    [epoch-<k>.pth] of any other [k], and every other path, is as it was
    before the run. *)
Theorem checkpoint_cadence args cfg su name (w w1 : World) :
  effective_config args = Ok cfg →
  setup cfg args w = (Ok su, w1) →
  loop_reads cfg name →
  read cfg ["TRAIN"; "BEGIN_EPOCH"] = Ok (VInt 0) →
  read cfg ["TRAIN"; "END_EPOCH"] = Ok (VInt 200) →
  let epoch_file epoch :=
    path_join (su_output_dir su) ("epoch-" +:+ pretty epoch +:+ ".pth") in
  let final_file := path_join (su_output_dir su) "final_state.pth" in
  let checkpoint epoch :=
    {| ck_epoch := epoch;
       ck_model_name := name;
       ck_state_dict := model (learner_after cfg su (su_learner su) 1 epoch);
       ck_optimizer := optimizer (learner_after cfg su (su_learner su) 1 epoch) |} in
  ∃ st w',
    main args w = (Ok st, w') ∧
    checkpoint_epochs (trace w')
    = checkpoint_epochs (trace w) ++ ((λ i, 5 * i) <$> py_range 1 41) ∧
    List.filter is_save (trace w')
    = List.filter is_save (trace w)
      ++ ((λ epoch, EvSaveCheckpoint epoch (epoch_file epoch) (checkpoint epoch))
            <$> ((λ i, 5 * i) <$> py_range 1 41))
      ++ [EvSaveFinal final_file
            (model (learner_after cfg su (su_learner su) 1 200))] ∧
    (∀ i, 1 ≤ i ≤ 40 →
       disk w' !! epoch_file (5 * i) = Some (FCheckpoint (checkpoint (5 * i)))) ∧
    disk w' !! final_file
    = Some (FStateDict (model (learner_after cfg su (su_learner su) 1 200))) ∧
    (∀ k, ¬ (∃ i, 1 ≤ i ≤ 40 ∧ k = 5 * i) →
       disk w' !! epoch_file k = disk w !! epoch_file k) ∧
    (∀ path,
       path ≠ final_file → (∀ k, path ≠ epoch_file k) →
       disk w' !! path = disk w !! path).
Proof.
  intros Hcfg Hsetup Hreads Hb He epoch_file final_file checkpoint.
  destruct (main_run args cfg su name 0 200 w w1) as (t & HP & Hmain & Ht & _);
    try done; try by (rewrite ?Hb, ?He).
  destruct (main_run_disk args cfg su name 0 200 w w1)
    as (st & w' & Hmain' & Hst & Hck & Hfinal & Hother);
    try done; try by (rewrite ?Hb, ?He).
  destruct (setup_events_no_saves t HP) as (Hsaves & Hckpt & _).
  exists st, w'. split; [exact Hmain'|].
  rewrite Hmain in Hmain'. apply pair_equal_spec in Hmain' as [Hst' Hw'].
  split; [|split; [|split; [|split; [|split]]]].
  - rewrite <- Hw'. unfold finish_world. cbn [trace].
    rewrite loop_world_trace, Ht.
    rewrite !checkpoint_epochs_app, Hckpt, loop_trace_checkpoint_epochs.
    change (0 + 1) with 1. change (200 + 1) with 201.
    rewrite multiples_of_five_to_200. simpl. by rewrite !app_nil_r.
  - rewrite <- Hw'. unfold finish_world. cbn [trace].
    rewrite loop_world_trace, Ht.
    rewrite !List.filter_app, Hsaves.
    change (0 + 1) with 1. change (200 + 1) with (1 + Z.of_nat 200).
    rewrite loop_trace_saves.
    change (1 + Z.of_nat 200) with 201. rewrite multiples_of_five_to_200.
    rewrite app_nil_r, <- app_assoc. reflexivity.
  - intros i Hi.
    apply (Hck (5 * i)); [lia|]. by rewrite Z.mul_comm, Z_mod_mult.
  - unfold final_file. fold (final_path su). rewrite Hfinal, Hst. reflexivity.
  - intros k Hk. apply Hother.
    + apply not_eq_sym, final_path_not_checkpoint.
    + intros k' Hk' Hmod Heq%checkpoint_path_inj. subst k'. apply Hk.
      exists (k / 5). split; [|by apply Z_div_exact_full_2].
      apply Z_div_exact_full_2 in Hmod; [|done]. lia.
  - intros path Hpf Hpc. apply Hother; [done|]. intros k _ _. apply Hpc.
Qed.

(** ** The schedule *)

Lemma lf_evaluates_iff cfg :
  lf_evaluates cfg = Ok () ↔
  ∃ end_epoch lrf,
    read cfg ["TRAIN"; "END_EPOCH"] ≫= as_num = Ok end_epoch ∧ end_epoch ≠ 0%Qc ∧
    read cfg ["TRAIN"; "LRF"] ≫= as_num = Ok lrf.
Proof.
  unfold lf_evaluates. split.
  - intros H. apply result_bind_ok in H as (e & He & H).
    apply result_bind_ok in H as ([] & Hne & H).
    apply result_bind_ok in H as (lrf & Hlrf & _).
    exists e, lrf. split; [done|]. split; [|done].
    by destruct (decide (e = 0%Qc)).
  - intros (e & lrf & -> & Hne & ->). simpl. by rewrite decide_False.
Qed.

(** C10, as the code has it: when [END_EPOCH <= BEGIN_EPOCH], a run that
    gets through set-up returns without a single loop iteration: after the
    set-up events the only events are the save of [final_state.pth], holding
    the model parameters set-up produced, and the closing of the writer; that
    file is the only change to the disk.  Set-up cannot get through when
    [END_EPOCH] is 0: the run then raises during set-up, and neither trains
    nor writes anything. *)
Theorem no_epochs_still_final_state args cfg b e (w : World) :
  effective_config args = Ok cfg →
  read cfg ["TRAIN"; "BEGIN_EPOCH"] ≫= as_int = Ok b →
  read cfg ["TRAIN"; "END_EPOCH"] ≫= as_int = Ok e →
  e ≤ b →
  (∀ su w1,
     setup cfg args w = (Ok su, w1) →
     e ≠ 0 ∧
     ∃ t, forallb is_setup_event t = true ∧
       main args w
       = (Ok {| learner := su_learner su; last_epoch := 0 |},
          {| disk := <[path_join (su_output_dir su) "final_state.pth"
                       := FStateDict (model (su_learner su))]> (disk w);
             trace := trace w ++ t
                      ++ [EvSaveFinal (path_join (su_output_dir su) "final_state.pth")
                            (model (su_learner su));
                          EvWriterClose] |})) ∧
  (e = 0 →
     ∃ err t,
       main args w = (Raise err, {| disk := disk w; trace := trace w ++ t |}) ∧
       forallb is_setup_event t = true).
Proof.
  intros Hcfg Hb He Hle.
  assert (Hzero : e = 0 → ∀ su w1, setup cfg args w ≠ (Ok su, w1)).
  { intros -> su w1 Hsetup.
    destruct (setup_ok _ _ _ _ _ Hsetup) as (Hlf & _).
    apply lf_evaluates_iff in Hlf as (q & lrf & Hq & Hne & _).
    apply result_bind_ok in He as (v & Hv & Hint).
    rewrite Hv in Hq. simpl in Hq.
    destruct v as [[|x|z|?|?]|?|?]; simpl in Hint, Hq; try discriminate;
      injection Hint as Hz; injection Hq as <-; apply Hne; rewrite Hz;
      apply Qc_is_canon; reflexivity. }
  split.
  - intros su w1 Hsetup. split.
    { intros ->. by apply (Hzero eq_refl su w1). }
    destruct (setup_ok _ _ _ _ _ Hsetup) as (_ & Hbegin & _).
    destruct (quiet_setup cfg args w) as [Hdisk (t & Ht & HP)].
    rewrite Hsetup in Hdisk, Ht. simpl in Hdisk, Ht.
    exists t. split; [done|].
    rewrite (main_effective _ _ _ Hcfg), (bind_step _ _ _ _ _ Hsetup).
    rewrite Hbegin in Hb. simpl in Hb.
    rewrite (training_no_epochs cfg su b e) by done.
    unfold finish_world, final_path. by rewrite Hdisk, Ht, app_assoc.
  - intros Hz.
    destruct (quiet_setup cfg args w) as [Hdisk (t & Ht & HP)].
    destruct (setup cfg args w) as [[su|err] w1] eqn:Hsetup.
    + by destruct (Hzero Hz su w1).
    + exists err, t. split; [|done].
      rewrite (main_effective _ _ _ Hcfg), (bind_raise _ _ _ _ _ Hsetup).
      simpl in Hdisk, Ht. destruct w1 as [d1 t1]. simpl in Hdisk, Ht.
      by rewrite Hdisk, Ht.
Qed.

(** C6: the learning rate after [epoch] scheduler steps is
    [lr0 * (((1 + cos(epoch * pi / end_epoch)) / 2) * (1 - lrf) + lrf)]; it is
    [lr0] before the first step and [lr0 * lrf] after [end_epoch] steps (for
    [end_epoch <> 0], the only case in which the factor can be evaluated).
    Every epoch of the loop takes exactly one scheduler step, so that a
    completed loop over the epochs [begin+1 .. end] has taken
    [max 0 (end - begin)] steps. *)
Theorem cosine_schedule :
  (∀ (lr0 end_epoch lrf : R) (epoch : Z),
     Schedule.lr lr0 end_epoch lrf epoch
     = (lr0 * (((1 + cos (IZR epoch * PI / end_epoch)) / 2) * (1 - lrf) + lrf))%R) ∧
  (∀ lr0 end_epoch lrf : R, Schedule.lr lr0 end_epoch lrf 0 = lr0) ∧
  (∀ (lr0 lrf : R) (end_epoch : Z),
     end_epoch ≠ 0 →
     Schedule.lr lr0 (IZR end_epoch) lrf end_epoch = (lr0 * lrf)%R) ∧
  (∀ cfg su name epoch st (w : World),
     lf_evaluates cfg = Ok () → loop_reads cfg name →
     ∃ st' w',
       epoch_body cfg su epoch st w = (Ok st', w') ∧
       last_epoch st' = last_epoch st + 1 ∧
       List.filter is_lr_step (trace w')
       = List.filter is_lr_step (trace w) ++ [EvLrStep]) ∧
  (∀ cfg su name b e (w : World),
     lf_evaluates cfg = Ok () → loop_reads cfg name →
     as_int (su_begin_epoch su) = Ok b →
     read cfg ["TRAIN"; "END_EPOCH"] ≫= as_int = Ok e →
     ∃ st w',
       training cfg su w = (Ok st, w') ∧
       last_epoch st = Z.max 0 (e - b) ∧
       Z.of_nat (length (List.filter is_lr_step (trace w')))
       = Z.of_nat (length (List.filter is_lr_step (trace w))) + Z.max 0 (e - b)).
Proof.
  split; [done|]. split; [|split; [|split]].
  - intros lr0 end_epoch lrf. unfold Schedule.lr, Schedule.lf.
    replace (0 * PI / end_epoch)%R with 0%R by (unfold Rdiv; ring).
    rewrite cos_0. field.
  - intros lr0 lrf end_epoch Hne. unfold Schedule.lr, Schedule.lf.
    replace (IZR end_epoch * PI / IZR end_epoch)%R with PI
      by (field; by apply not_0_IZR).
    rewrite cos_PI. field.
  - intros cfg su name epoch st w Hlf Hreads.
    eexists _, _. split; [by apply (epoch_body_run cfg su name)|].
    split; [done|]. unfold body_world. cbn [trace].
    by rewrite List.filter_app, body_trace_lr_steps.
  - intros cfg su name b e w Hlf Hreads Hb He.
    eexists _, _. split; [by apply (training_run cfg su name b e)|].
    split; [done|]. unfold finish_world. cbn [trace].
    rewrite loop_world_trace, !List.filter_app, !length_app, loop_trace_lr_steps.
    rewrite !Nat2Z.inj_add, py_range_length. simpl. lia.
Qed.

(** ** Resuming *)

Lemma initial_model_ok args (w0 w0' : World) m :
  initial_model args w0 = (Ok m, w0') →
  match load_from args with
  | Some path =>
      if str_truthy path
      then ∃ c, disk w0 !! path = Some (FCheckpoint c) ∧ m = ck_state_dict c
      else m = initial_state_dict
  | None => m = initial_state_dict
  end.
Proof.
  unfold initial_model. destruct (load_from args) as [path|].
  - destruct (str_truthy path).
    + unfold load_state_dict, torch_load, mbind, Run_bind.
      destruct (disk w0 !! path) as [[c|p]|]; simpl; try discriminate.
      intros [= <- _]. eauto.
    + by intros [= <- _].
  - by intros [= <- _].
Qed.

(** C1, as the code has it: [--load_from] restores the model parameters and
    nothing else.  After a successful set-up the model is the [state_dict] of
    the checkpoint file when a non-empty path was given, and the freshly
    built model otherwise; in both cases the optimizer is the one
    [get_optimizer] builds, both step counters are 0, and the loop visits the
    epochs [BEGIN_EPOCH+1 .. END_EPOCH] of the configuration, whatever epoch
    the checkpoint records. *)
Theorem load_from_restores_weights_only args cfg su (w w1 : World) :
  effective_config args = Ok cfg →
  setup cfg args w = (Ok su, w1) →
  match load_from args with
  | Some path =>
      if str_truthy path
      then ∃ c, disk w !! path = Some (FCheckpoint c) ∧
                model (su_learner su) = ck_state_dict c
      else model (su_learner su) = initial_state_dict
  | None => model (su_learner su) = initial_state_dict
  end ∧
  optimizer (su_learner su) = get_optimizer cfg (model (su_learner su)) ∧
  writer_dict (su_learner su)
  = {| train_global_steps := 0; valid_global_steps := 0 |} ∧
  epochs_of cfg su
  = (begin_epoch ← read cfg ["TRAIN"; "BEGIN_EPOCH"] ≫= as_int;
     end_epoch ← read cfg ["TRAIN"; "END_EPOCH"] ≫= as_int;
     Ok (py_range (begin_epoch + 1) (end_epoch + 1))) ∧
  (∀ name b e,
     loop_reads cfg name →
     read cfg ["TRAIN"; "BEGIN_EPOCH"] ≫= as_int = Ok b →
     read cfg ["TRAIN"; "END_EPOCH"] ≫= as_int = Ok e →
     ∃ st w',
       main args w = (Ok st, w') ∧
       trained_epochs (trace w') = trained_epochs (trace w) ++ py_range (b + 1) (e + 1)).
Proof.
  intros Hcfg Hsetup.
  destruct (setup_ok _ _ _ _ _ Hsetup)
    as (Hlf & Hbegin & _ & Hwriter & Hopt & (w0 & w0' & Hdisk & Hmodel) & _).
  split; [|split; [done|split; [done|split]]].
  - apply initial_model_ok in Hmodel. rewrite Hdisk in Hmodel. exact Hmodel.
  - unfold epochs_of. by rewrite Hbegin.
  - intros name b e Hreads Hb He.
    destruct (main_run args cfg su name b e w w1) as (t & HP & Hmain & Ht & _);
      try done.
    destruct (setup_events_no_saves t HP) as (_ & _ & Htrained).
    eexists _, _. split; [exact Hmain|].
    unfold finish_world. cbn [trace].
    rewrite loop_world_trace, Ht, !trained_epochs_app, Htrained, loop_trace_trained.
    by rewrite !app_nil_r.
Qed.

(** ** Single-source modes *)

(** C9, as the code has it (with [MODEL.IMAGE_SIZE], which every dataset
    constructor is given, present): a truthy [DATASET.MASKS_ONLY] selects the single
    2D-masks dataset with the fraction list [[1.0]], without
    [DATASET.LIDAR_DATA_ONLY] being read; only when [MASKS_ONLY] is falsy is
    [LIDAR_DATA_ONLY] read, and a truthy value selects the single reprojected
    3D dataset, again with [[1.0]].  For a single non-empty dataset with the
    fraction 1.0 the mixer gives the whole length as budget and the weight
    1. *)
Theorem single_source_modes cfg (w : World) masks_only image_size :
  read cfg ["DATASET"; "MASKS_ONLY"] = Ok masks_only →
  read cfg ["MODEL"; "IMAGE_SIZE"] = Ok image_size →
  let d2 := {| ds_kind := SegmDataset2D; ds_window := None;
               ds_name := "Segmentation 2D";
               ds_len := dataset_len cfg SegmDataset2D None |} in
  let d3 := {| ds_kind := SegmDataset3D; ds_window := None;
               ds_name := "Segmentation repojected 3D";
               ds_len := dataset_len cfg SegmDataset3D None |} in
  (truthy masks_only = true →
     select_datasets cfg w
     = (Ok ([d2], VList [SFloat (fl 1 1)]),
        {| disk := disk w; trace := trace w ++ [EvDataset d2] |})) ∧
  (truthy masks_only = false →
     ∀ lidar_data_only,
       read cfg ["DATASET"; "LIDAR_DATA_ONLY"] = Ok lidar_data_only →
       truthy lidar_data_only = true →
       select_datasets cfg w
       = (Ok ([d3], VList [SFloat (fl 1 1)]),
          {| disk := disk w; trace := trace w ++ [EvDataset d3] |})) ∧
  (∀ d : Dataset,
     (0 < ds_len d)%N →
     mixer [d] (VList [SFloat (fl 1 1)])
     = Ok {| dataset_samples_list := [Z.of_N (ds_len d)];
             num_samples := Z.of_N (ds_len d);
             weights := [Finite 1] |}).
Proof.
  intros Hmo Hsize d2 d3. split; [|split].
  - intros Ht. unfold select_datasets, new_dataset, lift, emit, mbind, Run_bind.
    by rewrite Hmo, Ht, Hsize.
  - intros Hf lidar Hlo Ht.
    unfold select_datasets, new_dataset, lift, emit, mbind, Run_bind.
    by rewrite Hmo, Hf, Hlo, Ht, Hsize.
  - intros d Hd.
    change [SFloat (fl 1 1)] with (SFloat <$> [fl 1 1]).
    rewrite mixer_floats_ok by (simpl; lia).
    assert (Hb : int_budget (fl 1 1) d = Z.of_N (ds_len d)).
    { rewrite int_budget_floor by discriminate. unfold floor_budget.
      replace (fl 1 1) with 1%Qc by (apply Qc_is_canon; reflexivity).
      rewrite Qcmult_1_l. unfold Qc_of_Z, Qfloor. simpl. apply Z.div_1_r. }
    unfold mix_of. cbn [zip_with]. rewrite Hb.
    unfold sumZ. cbn [foldr]. rewrite Z.add_0_r.
    f_equal. f_equal. csimpl. f_equal.
    rewrite np_div_finite by lia. f_equal.
    apply Qcmult_inv_r. rewrite <- Z2Qc_inj_0. intros Heq%Z2Qc_inj. lia.
Qed.

(** ** The mixer has no validation *)

(** C3, as the code has it: the mixer checks nothing.  For fractions that are
    floats between 0 and 1: with fewer fractions than datasets it raises an
    [IndexError]; with at least as many it returns, one budget per dataset,
    the surplus fractions unread; and when every dataset is empty or has the
    fraction 0 it still returns, with the total budget 0 and every weight
    [nan].  The mixer is part of set-up: a run whose trace gains a training
    pass has been through a set-up in which the mixer returned. *)
Theorem mixer_has_no_validation :
  (∀ (ds : list Dataset) (fs : list Qc),
     Forall (λ f, 0 ≤ f ∧ f ≤ 1)%Qc fs →
     ((length fs < length ds)%nat →
        mixer ds (VList (SFloat <$> fs)) = Raise IndexError) ∧
     ((length ds ≤ length fs)%nat →
        ∃ m,
          mixer ds (VList (SFloat <$> fs)) = Ok m ∧
          mixer ds (VList (SFloat <$> take (length ds) fs)) = Ok m ∧
          length (dataset_samples_list m) = length ds ∧
          (Forall2 (λ f d, f = 0%Qc ∨ ds_len d = 0%N) (take (length ds) fs) ds →
             num_samples m = 0 ∧ Forall (λ x, x = NaN) (weights m)))) ∧
  (∀ args (w : World),
     trained_epochs (trace (main args w).2) ≠ trained_epochs (trace w) →
     ∃ cfg su w1 ds fr w2 w3,
       effective_config args = Ok cfg ∧
       setup cfg args w = (Ok su, w1) ∧
       select_datasets cfg w2 = (Ok (ds, fr), w3) ∧
       mixer ds fr = Ok (su_mix su)).
Proof.
  split.
  - intros ds fs Hfs. split; [apply mixer_floats_short|].
    intros Hlen. exists (mix_of (zip_with int_budget fs ds)).
    split; [by apply mixer_floats_ok|]. split; [|split].
    + rewrite mixer_floats_ok by (rewrite length_take; lia).
      by rewrite zip_with_take_datasets.
    + unfold mix_of. cbn [dataset_samples_list].
      rewrite length_zip_with. lia.
    + intros Hzero. apply zero_budgets in Hzero.
      rewrite zip_with_take_datasets in Hzero.
      unfold mix_of. cbn [num_samples weights].
      rewrite (sumZ_zeros _ Hzero). split; [done|].
      apply Forall_fmap. eapply Forall_impl; [exact Hzero|].
      by intros n ->.
  - intros args w Htrained.
    destruct (effective_config args) as [cfg|e0] eqn:Hcfg.
    2: { exfalso. apply Htrained.
         unfold effective_config in Hcfg.
         unfold main, proceed, lift, mbind, Run_bind.
         destruct (select_config args) as [cfg0|e1]; simpl in Hcfg; [|done].
         by rewrite update_config_value in Hcfg. }
    destruct (setup cfg args w) as [[su|e1] w1] eqn:Hsetup.
    + destruct (setup_ok _ _ _ _ _ Hsetup) as (_ & _ & _ & _ & _ & _ & Hmix).
      destruct Hmix as (ds & fr & w2 & w3 & Hsel & Hmixer).
      by exists cfg, su, w1, ds, fr, w2, w3.
    + exfalso. apply Htrained.
      rewrite (main_effective _ _ _ Hcfg), (bind_raise _ _ _ _ _ Hsetup).
      destruct (quiet_setup cfg args w) as [_ (t & Ht & HP)].
      rewrite Hsetup in Ht. simpl in Ht |- *.
      destruct (setup_events_no_saves t HP) as (_ & _ & Hnone).
      by rewrite Ht, trained_epochs_app, Hnone, app_nil_r.
Qed.

(** ** When the final state is written *)

Lemma quiet_emits {A} (P Q : Event Params OptState → bool) (m : Run A) :
  (∀ e, P e = true → Q e = true) → quiet P m → emits Q m.
Proof.
  intros HPQ Hm w. destruct (Hm w) as [_ (t & Ht & HP)].
  exists t. split; [done|].
  rewrite forallb_forall in HP. apply forallb_forall. auto.
Qed.

Lemma emits_bind {A B} (P : Event Params OptState → bool) (m : Run A) (f : A → Run B) :
  emits P m → (∀ a, emits P (f a)) → emits P (m ≫= f).
Proof.
  intros Hm Hf w. unfold mbind, Run_bind.
  destruct (Hm w) as (t & Ht & HP). destruct (m w) as [[a|e] w1]; simpl in *.
  - destruct (Hf a w1) as (t' & Ht' & HP'). exists (t ++ t').
    by rewrite Ht', Ht, app_assoc, forallb_app, HP, HP'.
  - eauto.
Qed.

Lemma emits_torch_save (P : Event Params OptState → bool) obj path :
  emits P (torch_save obj path : Run ()).
Proof. intros w. exists []. simpl. by rewrite app_nil_r. Qed.

Lemma emits_simple {A} (P : Event Params OptState → bool) (m : Run A) :
  quiet P m → emits P m.
Proof. by apply quiet_emits. Qed.

Ltac emits_tac :=
  cbv zeta;
  repeat first
    [ apply emits_torch_save
    | apply emits_simple; quiet_tac; fail
    | apply emits_bind; [|intros ?]
    | match goal with |- emits _ (if ?b then _ else _) => destruct b end ].

Lemma emits_epoch_body cfg su epoch st :
  emits (λ e, negb (is_final_event e)) (epoch_body cfg su epoch st).
Proof. unfold epoch_body, when, save_checkpoint. emits_tac. Qed.

Lemma emits_epoch_loop cfg su : ∀ epochs st,
  emits (λ e, negb (is_final_event e)) (epoch_loop cfg su epochs st).
Proof.
  induction epochs as [|epoch rest IH]; intros st; simpl.
  - apply emits_simple, quiet_ret.
  - apply emits_bind; [apply emits_epoch_body | intros ?; apply IH].
Qed.

Lemma emits_setup cfg args :
  emits (λ e, negb (is_final_event e)) (setup cfg args).
Proof.
  apply (quiet_emits is_setup_event); [|apply quiet_setup].
  by intros [].
Qed.

Lemma keeps_quiet {A} (P : Event Params OptState → bool) path (m : Run A) :
  quiet P m → keeps path m.
Proof. intros Hm w. destruct (Hm w) as [-> _]. done. Qed.

Lemma keeps_bind {A B} path (m : Run A) (f : A → Run B) :
  keeps path m → (∀ a, keeps path (f a)) → keeps path (m ≫= f).
Proof.
  intros Hm Hf w. unfold mbind, Run_bind.
  pose proof (Hm w) as Hw. destruct (m w) as [[a|e] w1]; simpl in *; [|done].
  by rewrite Hf.
Qed.

Lemma keeps_torch_save path obj path' :
  path ≠ path' → keeps path (torch_save obj path' : Run ()).
Proof. intros Hne w. simpl. by rewrite lookup_insert_ne. Qed.

Lemma keeps_epoch_body cfg su epoch st :
  keeps (final_path su) (epoch_body cfg su epoch st).
Proof.
  unfold epoch_body, when, save_checkpoint. cbv zeta.
  repeat first
    [ apply keeps_torch_save; apply (final_path_not_checkpoint su epoch)
    | apply (keeps_quiet (λ _, true)); quiet_tac; fail
    | apply keeps_bind; [|intros ?]
    | match goal with |- keeps _ (if ?b then _ else _) => destruct b end ].
Qed.

Lemma keeps_epoch_loop cfg su : ∀ epochs st,
  keeps (final_path su) (epoch_loop cfg su epochs st).
Proof.
  induction epochs as [|epoch rest IH]; intros st; simpl.
  - by intros w.
  - apply keeps_bind; [apply keeps_epoch_body | intros ?; apply IH].
Qed.

(** X8: [final_state.pth] is saved only by a run that completes, and then
    as the last thing but closing the writer.  Whatever the arguments and the
    disk: if [main] returns, the events it added end with the save of the
    returned model's parameters to [final_state.pth] under
    [final_output_dir], followed by the writer's close, neither event occurs
    earlier, and the disk holds these parameters under that path; if [main]
    raises, neither event occurs at all and that path is as it was. *)
Theorem final_state_only_on_completion (args : Args) (w : World) :
  ∃ t,
    trace (main args w).2 = trace w ++ t ∧
    match (main args w).1 with
    | Ok st =>
        ∃ t0 cfg log_dir,
          effective_config args = Ok cfg ∧
          read cfg ["LOG_DIR"] = Ok log_dir ∧
          let path := path_join (final_output_dir cfg log_dir) "final_state.pth" in
          t = t0 ++ [EvSaveFinal path (model (learner st)); EvWriterClose] ∧
          forallb (λ e, negb (is_final_event e)) t0 = true ∧
          disk (main args w).2 !! path = Some (FStateDict (model (learner st)))
    | Raise _ =>
        forallb (λ e, negb (is_final_event e)) t = true ∧
        ∀ cfg log_dir,
          effective_config args = Ok cfg →
          read cfg ["LOG_DIR"] = Ok log_dir →
          let path := path_join (final_output_dir cfg log_dir) "final_state.pth" in
          disk (main args w).2 !! path = disk w !! path
    end.
Proof.
  destruct (main args w) as [r w'] eqn:Hmain. cbn [fst snd].
  destruct (effective_config args) as [cfg|e0] eqn:Hcfg.
  2: { unfold effective_config in Hcfg.
       unfold main, proceed, lift, mbind, Run_bind in Hmain.
       destruct (select_config args) as [cfg0|e1]; simpl in Hcfg.
       { by rewrite update_config_value in Hcfg. }
       injection Hmain as <- <-. exists []. rewrite app_nil_r.
       split; [done|]. split; [done|]. intros; discriminate. }
  rewrite (main_effective _ _ _ Hcfg) in Hmain.
  unfold mbind, Run_bind in Hmain.
  destruct (emits_setup cfg args w) as (t1 & Ht1 & HP1).
  destruct (quiet_setup cfg args w) as [Hd1 _].
  destruct (setup cfg args w) as [[su|e1] w1] eqn:Hsetup; simpl in Ht1, Hd1.
  2: { injection Hmain as <- <-. exists t1. split; [done|]. split; [done|].
       intros cfg' log_dir' _ _. cbv zeta. by rewrite Hd1. }
  destruct (setup_ok _ _ _ _ _ Hsetup) as (_ & _ & (log_dir & Hlog & Hdir) & _).
  assert (Hpath : ∀ cfg' log_dir',
            Ok cfg = Ok cfg' → read cfg' ["LOG_DIR"] = Ok log_dir' →
            path_join (final_output_dir cfg' log_dir') "final_state.pth"
            = final_path su).
  { intros cfg' log_dir' [= <-] Hlog'. rewrite Hlog in Hlog'.
    injection Hlog' as <-. unfold final_path. by rewrite Hdir. }
  unfold training, lift in Hmain. unfold mbind, Run_bind in Hmain.
  destruct (epochs_of cfg su) as [epochs|e2].
  2: { injection Hmain as <- <-. exists t1. split; [done|]. split; [done|].
       intros cfg' log_dir' Hc Hl. cbv zeta. by rewrite Hd1. }
  destruct (emits_epoch_loop cfg su epochs
              {| learner := su_learner su; last_epoch := 0 |} w1)
    as (t2 & Ht2 & HP2).
  pose proof (keeps_epoch_loop cfg su epochs
                {| learner := su_learner su; last_epoch := 0 |} w1) as Hd2.
  destruct (epoch_loop cfg su epochs _ w1) as [[st|e3] w2]; simpl in Ht2, Hd2.
  - rewrite finish_run in Hmain. unfold mret, Run_ret in Hmain.
    injection Hmain as <- <-. unfold finish_world. cbn [trace disk].
    exists ((t1 ++ t2) ++ [EvSaveFinal (final_path su) (model (learner st)); EvWriterClose]).
    split; [by rewrite Ht2, Ht1, !app_assoc|].
    exists (t1 ++ t2), cfg, log_dir. split; [done|]. split; [done|].
    cbv zeta. rewrite (Hpath cfg log_dir eq_refl Hlog).
    split; [done|]. split; [by rewrite forallb_app, HP1, HP2|].
    by rewrite lookup_insert_eq.
  - injection Hmain as <- <-.
    exists (t1 ++ t2). split; [by rewrite Ht2, Ht1, app_assoc|].
    split; [by rewrite forallb_app, HP1, HP2|].
    intros cfg' log_dir' Hc Hl. cbv zeta.
    rewrite (Hpath cfg' log_dir' Hc Hl). by rewrite Hd2, Hd1.
Qed.

(** ** Failures of [--load_from] and of the validation cadence *)

(** X9: a [--load_from] path that cannot be used stops [main] right after
    the model is built: a missing file raises [FileNotFoundError], and a file
    that holds a bare [state_dict] (such as [final_state.pth]) raises
    [KeyError('state_dict')].  Neither optimizer nor datasets exist yet, and
    the disk is untouched. *)
Theorem load_from_failures args cfg log_dir benchmark deterministic enabled path
    (w : World) :
  effective_config args = Ok cfg →
  read cfg ["LOG_DIR"] = Ok log_dir →
  read cfg ["CUDNN"; "BENCHMARK"] = Ok benchmark →
  read cfg ["CUDNN"; "DETERMINISTIC"] = Ok deterministic →
  read cfg ["CUDNN"; "ENABLED"] = Ok enabled →
  load_from args = Some path →
  str_truthy path = true →
  let stopped :=
    {| disk := disk w;
       trace := trace w ++ [EvCreateLogger log_dir; EvSummaryWriter; EvModel] |} in
  (disk w !! path = None →
     main args w = (Raise (FileNotFoundError path), stopped)) ∧
  (∀ p, disk w !! path = Some (FStateDict p) →
     main args w = (Raise (KeyError "state_dict"), stopped)).
Proof.
  intros Hcfg Hlog Hb Hd He Hpath Htruthy stopped.
  rewrite (main_effective _ _ _ Hcfg).
  unfold setup, initial_model, load_state_dict, torch_load, lift, emit.
  rewrite Hpath, Htruthy. unfold mbind, Run_bind.
  rewrite Hlog, Hb, Hd, He. cbn [disk trace].
  split.
  - intros ->. unfold stopped. by rewrite <- !app_assoc.
  - intros p ->. unfold stopped. by rewrite <- !app_assoc.
Qed.

Lemma num_mod_int (k v : Z) :
  v ≠ 0 → num_mod k (Qc_of_Z v) = Ok (Qc_of_Z (k mod v)).
Proof.
  intros Hv. unfold num_mod.
  rewrite decide_False by (rewrite <- Z2Qc_inj_0; by intros ?%Z2Qc_inj).
  f_equal.
  assert (Hfloor : Qfloor (this (Qc_of_Z k) / this (Qc_of_Z v))%Q = k / v)
    by (symmetry; apply Zdiv_Qdiv).
  cbv zeta. rewrite Hfloor, <- Z2Qc_inj_mul, <- Z2Qc_inj_sub. f_equal.
  rewrite Z.mod_eq by done. done.
Qed.

(** With integers for [VAL_FREQ] and [END_EPOCH] the test of line 247 is the
    integer one. *)
Lemma due_int cfg (v e k : Z) :
  read cfg ["TRAIN"; "VAL_FREQ"] = Ok (VInt v) → v ≠ 0 →
  read cfg ["TRAIN"; "END_EPOCH"] = Ok (VInt e) →
  due cfg k = bool_decide (k mod v = 0 ∨ k = e).
Proof.
  intros Hv Hne He. unfold due, validation_due. rewrite Hv. simpl.
  rewrite num_mod_int by done. simpl.
  destruct (decide (Qc_of_Z (k mod v) = 0%Qc)) as [Hz|Hnz].
  - rewrite <- Z2Qc_inj_0 in Hz. apply Z2Qc_inj in Hz.
    by rewrite bool_decide_true by auto.
  - rewrite He. simpl. apply bool_decide_ext. split; [auto|].
    intros [Hz|Hk]; [|done]. destruct Hnz. by rewrite Hz, Z2Qc_inj_0.
Qed.

Lemma validated_epochs_app (t1 t2 : list (Event Params OptState)) :
  validated_epochs (t1 ++ t2) = validated_epochs t1 ++ validated_epochs t2.
Proof. apply omap_app. Qed.

Lemma sampler_epochs_app (t1 t2 : list (Event Params OptState)) :
  sampler_epochs (t1 ++ t2) = sampler_epochs t1 ++ sampler_epochs t2.
Proof. apply omap_app. Qed.

Lemma loop_trace_validated cfg su name : ∀ epochs l,
  validated_epochs (loop_trace cfg su name epochs l) = List.filter (due cfg) epochs.
Proof.
  induction epochs as [|epoch rest IH]; intros l; [done|].
  cbn [loop_trace List.filter]. rewrite validated_epochs_app, IH.
  unfold body_trace.
  by destruct (bool_decide (global_rank ≠ -1)), (due cfg epoch),
    (bool_decide (epoch mod 5 = 0)).
Qed.

Lemma loop_trace_sampler cfg su name : ∀ epochs l,
  sampler_epochs (loop_trace cfg su name epochs l)
  = if bool_decide (global_rank ≠ -1) then epochs else [].
Proof.
  induction epochs as [|epoch rest IH]; intros l.
  - by destruct (bool_decide (global_rank ≠ -1)).
  - cbn [loop_trace]. rewrite sampler_epochs_app, IH.
    unfold body_trace.
    by destruct (bool_decide (global_rank ≠ -1)), (due cfg epoch),
      (bool_decide (epoch mod 5 = 0)).
Qed.

Lemma setup_events_quiet (t : list (Event Params OptState)) :
  forallb is_setup_event t = true →
  validated_epochs t = [] ∧ sampler_epochs t = [].
Proof.
  induction t as [|e t IH]; [done|]. simpl.
  intros [He Ht]%andb_prop. destruct (IH Ht) as (IH1 & IH2).
  unfold validated_epochs, sampler_epochs in *.
  by destruct e; try discriminate; simpl; rewrite ?IH1, ?IH2.
Qed.

Lemma py_range_snoc a c : a ≤ c → py_range a (c + 1) = py_range a c ++ [c].
Proof.
  intros H. unfold py_range.
  replace (Z.to_nat (c + 1 - a)) with (S (Z.to_nat (c - a))) by lia.
  rewrite seq_S, List.map_app. simpl. do 2 f_equal. lia.
Qed.

(** X10: a [VAL_FREQ] of 0 aborts the run in its first epoch.  The training
    pass and the scheduler step of epoch [BEGIN_EPOCH+1] have happened when
    line 247 raises [ZeroDivisionError]; nothing is validated and nothing is
    ever written to the disk. *)
Theorem zero_val_freq_aborts args cfg su b e (w w1 : World) :
  effective_config args = Ok cfg →
  setup cfg args w = (Ok su, w1) →
  read cfg ["TRAIN"; "BEGIN_EPOCH"] ≫= as_int = Ok b →
  read cfg ["TRAIN"; "END_EPOCH"] ≫= as_int = Ok e →
  b < e →
  read cfg ["TRAIN"; "VAL_FREQ"] ≫= as_num = Ok 0%Qc →
  main args w
  = (Raise ZeroDivisionError,
     {| disk := disk w;
        trace := trace w1
                 ++ (if bool_decide (global_rank ≠ -1) then [EvSetEpoch (b + 1)] else [])
                 ++ [EvTrain (b + 1); EvLrStep] |}).
Proof.
  intros Hcfg Hsetup Hb He Hlt Hvf.
  destruct (setup_ok _ _ _ _ _ Hsetup) as (Hlf & Hbegin & _).
  destruct (quiet_setup cfg args w) as [Hdisk _].
  rewrite Hsetup in Hdisk. simpl in Hdisk.
  rewrite (main_effective _ _ _ Hcfg), (bind_step _ _ _ _ _ Hsetup).
  rewrite Hbegin in Hb. simpl in Hb.
  unfold training, epochs_of. rewrite Hb, He. simpl.
  rewrite (py_range_cons (b + 1) (e + 1)) by lia.
  erewrite bind_step by (unfold lift; reflexivity).
  cbn [epoch_loop].
  assert (Hbody : ∀ st,
    epoch_body cfg su (b + 1) st w1
    = (Raise ZeroDivisionError,
       {| disk := disk w;
          trace := trace w1
                   ++ (if bool_decide (global_rank ≠ -1) then [EvSetEpoch (b + 1)] else [])
                   ++ [EvTrain (b + 1); EvLrStep] |})).
  { intros st. unfold epoch_body, when, validation_due, emit, lift.
    unfold mbind at 1 2 3 4 5, Run_bind.
    rewrite Hlf. unfold mbind, Result_bind in Hvf |- *.
    destruct (read cfg ["TRAIN"; "VAL_FREQ"]) as [v|]; [|discriminate].
    rewrite Hvf. unfold num_mod. rewrite decide_True by done.
    destruct (bool_decide (global_rank ≠ -1)); unfold mret, Run_ret;
      cbn [disk trace fst snd]; rewrite Hdisk, <- ?app_assoc; reflexivity. }
  by rewrite (bind_raise _ _ _ _ _ (bind_raise _ _ _ _ _ (Hbody _))).
Qed.

(** X11: in a run that completes, with integers for [VAL_FREQ] (not 0) and
    [END_EPOCH], the epochs validated are exactly those of
    [BEGIN_EPOCH+1 .. END_EPOCH] that are a multiple of [VAL_FREQ] or equal
    to [END_EPOCH], in order; so the last epoch is always validated. *)
Theorem validation_cadence args cfg su name b v e (w w1 : World) :
  effective_config args = Ok cfg →
  setup cfg args w = (Ok su, w1) →
  read cfg ["MODEL"; "NAME"] = Ok name →
  read cfg ["TRAIN"; "BEGIN_EPOCH"] ≫= as_int = Ok b →
  read cfg ["TRAIN"; "VAL_FREQ"] = Ok (VInt v) → v ≠ 0 →
  read cfg ["TRAIN"; "END_EPOCH"] = Ok (VInt e) →
  ∃ st w',
    main args w = (Ok st, w') ∧
    validated_epochs (trace w')
    = validated_epochs (trace w)
      ++ List.filter (λ k, bool_decide (k mod v = 0 ∨ k = e)) (py_range (b + 1) (e + 1)) ∧
    (b < e → last (validated_epochs (trace w')) = Some e).
Proof.
  intros Hcfg Hsetup Hname Hb Hv Hne He.
  assert (Hreads : loop_reads cfg name).
  { split; [|done]. exists (Qc_of_Z v). rewrite Hv. split; [done|].
    rewrite <- Z2Qc_inj_0. by intros ?%Z2Qc_inj. }
  destruct (main_run args cfg su name b e w w1) as (t & HP & Hmain & Ht & _);
    try done; try by rewrite He.
  destruct (setup_events_quiet t HP) as (Hval & _).
  eexists _, _. split; [exact Hmain|].
  unfold finish_world. cbn [trace].
  rewrite loop_world_trace, Ht, !validated_epochs_app, Hval, loop_trace_validated.
  rewrite (filter_ext (due cfg) (λ k, bool_decide (k mod v = 0 ∨ k = e)))
    by (intros k; by apply due_int).
  cbn [validated_epochs omap]. rewrite !app_nil_r. split; [done|].
  intros Hlt. rewrite py_range_snoc by lia.
  rewrite List.filter_app. cbn [List.filter].
  rewrite bool_decide_true by auto.
  by rewrite app_assoc, last_snoc.
Qed.

(** X12: the sampler is told the epoch exactly when [RANK] is set.  In a
    run that completes, [set_epoch] is called once for each epoch of
    [BEGIN_EPOCH+1 .. END_EPOCH], in order, when the rank is not -1, and
    never when it is. *)
Theorem sampler_epoch_only_with_rank args cfg su name b e (w w1 : World) :
  effective_config args = Ok cfg →
  setup cfg args w = (Ok su, w1) →
  loop_reads cfg name →
  read cfg ["TRAIN"; "BEGIN_EPOCH"] ≫= as_int = Ok b →
  read cfg ["TRAIN"; "END_EPOCH"] ≫= as_int = Ok e →
  ∃ st w',
    main args w = (Ok st, w') ∧
    sampler_epochs (trace w')
    = sampler_epochs (trace w)
      ++ (if bool_decide (global_rank ≠ -1) then py_range (b + 1) (e + 1) else []).
Proof.
  intros Hcfg Hsetup Hreads Hb He.
  destruct (main_run args cfg su name b e w w1) as (t & HP & Hmain & Ht & _);
    try done.
  destruct (setup_events_quiet t HP) as (_ & Hsampler).
  eexists _, _. split; [exact Hmain|].
  unfold finish_world. cbn [trace].
  rewrite loop_world_trace, Ht, !sampler_epochs_app, Hsampler, loop_trace_sampler.
  cbn [sampler_epochs omap]. by rewrite !app_nil_r.
Qed.

(** ** Set-up: the mixed mode and the warm-up length *)









(** ** The files of a completed run *)

(** X15: the files a completed run leaves.  Under [final_output_dir],
    [epoch-k.pth] exists for every multiple of five [k] among the epochs
    trained and holds the epoch, the model name, and the weights and the
    optimizer state as they were after epoch [k]; [final_state.pth] holds
    the returned model's bare parameters; the checkpoint file of any other
    epoch, and every other path, is as it was before the run. *)
Theorem completed_run_files args cfg su name b e (w w1 : World) :
  effective_config args = Ok cfg →
  setup cfg args w = (Ok su, w1) →
  loop_reads cfg name →
  read cfg ["TRAIN"; "BEGIN_EPOCH"] ≫= as_int = Ok b →
  read cfg ["TRAIN"; "END_EPOCH"] ≫= as_int = Ok e →
  ∃ st w',
    main args w = (Ok st, w') ∧
    (∀ k, b < k ≤ e → k mod 5 = 0 →
       ∃ c, disk w' !! checkpoint_path su k = Some (FCheckpoint c) ∧
            ck_epoch c = k ∧ ck_model_name c = name ∧
            ck_state_dict c = model (learner_after cfg su (su_learner su) (b + 1) k) ∧
            ck_optimizer c
            = optimizer (learner_after cfg su (su_learner su) (b + 1) k)) ∧
    disk w' !! final_path su = Some (FStateDict (model (learner st))) ∧
    (∀ k, ¬ (b < k ≤ e ∧ k mod 5 = 0) →
       disk w' !! checkpoint_path su k = disk w !! checkpoint_path su k) ∧
    (∀ path,
       path ≠ final_path su → (∀ k, path ≠ checkpoint_path su k) →
       disk w' !! path = disk w !! path).
Proof.
  intros Hcfg Hsetup Hreads Hb He.
  destruct (main_run_disk args cfg su name b e w w1)
    as (st & w' & Hmain & _ & Hck & Hfinal & Hother); try done.
  exists st, w'. split; [done|]. split; [|split; [done|split]].
  - intros k Hk Hmod. eexists. split; [by apply Hck|]. done.
  - intros k Hk. apply Hother.
    + apply not_eq_sym, final_path_not_checkpoint.
    + intros k' Hk' Hmod Heq%checkpoint_path_inj. subst k'. by apply Hk.
  - intros path Hpf Hpc. apply Hother; [done|]. intros k _ _. apply Hpc.
Qed.

(** X16: [final_state.pth] cannot be given to [--load_from].  The file a
    completed run writes last holds the bare parameters, while lines
    100-101 index what they load with ['state_dict']: starting the model of a
    later run from it raises [KeyError('state_dict')] and leaves the world as
    it was. *)
Theorem final_state_not_loadable args cfg su name b e (w w1 : World) :
  effective_config args = Ok cfg →
  setup cfg args w = (Ok su, w1) →
  loop_reads cfg name →
  read cfg ["TRAIN"; "BEGIN_EPOCH"] ≫= as_int = Ok b →
  read cfg ["TRAIN"; "END_EPOCH"] ≫= as_int = Ok e →
  ∃ st w',
    main args w = (Ok st, w') ∧
    ∀ args', load_from args' = Some (final_path su) →
      initial_model args' w' = (Raise (KeyError "state_dict"), w').
Proof.
  intros Hcfg Hsetup Hreads Hb He.
  destruct (main_run_disk args cfg su name b e w w1)
    as (st & w' & Hmain & _ & _ & Hfinal & _); try done.
  exists st, w'. split; [done|]. intros args' Hfrom.
  unfold initial_model. rewrite Hfrom.
  assert (Htruthy : str_truthy (final_path su) = true)
    by (by apply str_truthy_path_join).
  rewrite Htruthy.
  unfold load_state_dict, torch_load, lift, mbind, Run_bind. by rewrite Hfinal.
Qed.

(** X17: the checkpoints of a completed run can be given to [--load_from],
    and give back the weights of their epoch.  For every multiple of five
    [k] among the epochs trained, starting the model of a later run from
    [epoch-k.pth] yields the weights the first run had after epoch [k]; for
    [k = END_EPOCH] these are the weights the first run returned. *)
Theorem checkpoint_round_trip args cfg su name b e (w w1 : World) :
  effective_config args = Ok cfg →
  setup cfg args w = (Ok su, w1) →
  loop_reads cfg name →
  read cfg ["TRAIN"; "BEGIN_EPOCH"] ≫= as_int = Ok b →
  read cfg ["TRAIN"; "END_EPOCH"] ≫= as_int = Ok e →
  ∃ st w',
    main args w = (Ok st, w') ∧
    ∀ args' k,
      b < k ≤ e → k mod 5 = 0 →
      load_from args' = Some (checkpoint_path su k) →
      initial_model args' w'
      = (Ok (model (learner_after cfg su (su_learner su) (b + 1) k)),
         {| disk := disk w';
            trace := trace w' ++ [EvLoadStateDict (checkpoint_path su k)] |}) ∧
      (k = e → model (learner_after cfg su (su_learner su) (b + 1) k)
               = model (learner st)).
Proof.
  intros Hcfg Hsetup Hreads Hb He.
  destruct (main_run_disk args cfg su name b e w w1)
    as (st & w' & Hmain & Hst & Hck & _); try done.
  exists st, w'. split; [done|]. intros args' k Hk Hmod Hfrom.
  split; [|by intros ->; rewrite Hst].
  unfold initial_model. rewrite Hfrom.
  assert (Htruthy : str_truthy (checkpoint_path su k) = true)
    by (by apply str_truthy_path_join).
  rewrite Htruthy.
  unfold load_state_dict, torch_load, emit, mbind, Run_bind.
  by rewrite (Hck k Hk Hmod).
Qed.

End RunFacts.







(** * Concrete runs *)

Section Runs.
Import Config Train.

(** C1 fails as stated: an uninterrupted default run writes the checkpoint
    of epoch 5; a run resumed from that file starts training at epoch 1, not
    at epoch 6, and trains 200 epochs, not 195. *)
Lemma resumed_run_restarts_at_first_epoch :
  let first := @main Z Z counting default_args (boot ∅) in
  let resumed :=
    @main Z Z counting (resume_args "runs/out/epoch-5.pth") (boot (disk first.2)) in
  disk first.2 !! "runs/out/epoch-5.pth"
  = Some (FCheckpoint {| ck_epoch := 5; ck_model_name := VStr "";
                         ck_state_dict := 5; ck_optimizer := 5 |}) ∧
  is_ok resumed.1 = true ∧
  head (trained_epochs (trace resumed.2)) = Some 1 ∧
  head (trained_epochs (trace resumed.2)) ≠ Some (5 + 1) ∧
  length (trained_epochs (trace resumed.2)) = 200%nat.
Proof. by vm_compute. Qed.

Lemma load_from_restores_weights_only_witness :
  match @setup Z Z counting waymo_effective (resume_args "runs/out/epoch-5.pth")
          (boot disk_with_checkpoint) with
  | (Ok su, _) =>
      model (su_learner su) = 5 ∧
      optimizer (su_learner su) = 0 ∧
      train_global_steps (writer_dict (su_learner su)) = 0 ∧
      epochs_of waymo_effective su = Ok (py_range 1 201)
  | (Raise _, _) => False
  end.
Proof.
  destruct (@setup Z Z counting waymo_effective (resume_args "runs/out/epoch-5.pth")
              (boot disk_with_checkpoint)) as [[su|e] w1] eqn:Hsetup;
    [|vm_compute in Hsetup; discriminate].
  destruct (@load_from_restores_weights_only Z Z counting
              (resume_args "runs/out/epoch-5.pth") waymo_effective su
              (boot disk_with_checkpoint) w1 eq_refl Hsetup)
    as ((c & Hc & Hmodel) & Hopt & Hwriter & Hepochs & _).
  injection Hc as <-.
  split; [exact Hmodel|]. split; [exact Hopt|].
  split; [by rewrite Hwriter|]. exact Hepochs.
Defined.

Lemma dataset_type_dispatch_witness :
  @main Z Z counting
    {| logDir := "runs/"; load_from := None; dataset_type := "nuscenes" |} (boot ∅)
  = (Raise (ValueError "Unsupported dataset type"), boot ∅).
Proof.
  apply (proj2 (proj2 (@dataset_type_dispatch Z Z counting
    {| logDir := "runs/"; load_from := None; dataset_type := "nuscenes" |} (boot ∅)))).
  simpl. rewrite !not_elem_of_cons. repeat split; try discriminate.
  apply not_elem_of_nil.
Defined.

Lemma cosine_schedule_witness :
  Schedule.lr 1 (IZR 200) (1 / 2) 200 = (1 * (1 / 2))%R.
Proof.
  apply (proj1 (proj2 (proj2 (@cosine_schedule Z Z counting)))). discriminate.
Defined.

Lemma waymo_loop_reads : loop_reads waymo_effective (VStr "").
Proof.
  split; [|reflexivity]. exists 1%Qc. split; [|discriminate].
  qc_eval.
Defined.

Lemma checkpoint_cadence_witness :
  ∃ st w',
    @main Z Z counting default_args (boot ∅) = (Ok st, w') ∧
    checkpoint_epochs (trace w') = (λ i, 5 * i) <$> py_range 1 41 ∧
    disk w' !! "runs/out/epoch-200.pth"
    = Some (FCheckpoint {| ck_epoch := 200; ck_model_name := VStr "";
                           ck_state_dict := 200; ck_optimizer := 200 |}) ∧
    disk w' !! "runs/out/final_state.pth" = Some (FStateDict 200) ∧
    disk w' !! "runs/out/epoch-7.pth" = None.
Proof.
  destruct (@setup Z Z counting waymo_effective default_args (boot ∅))
    as [[su|e] w1] eqn:Hsetup; [|vm_compute in Hsetup; discriminate].
  destruct (@checkpoint_cadence Z Z counting default_args waymo_effective su
              (VStr "") (boot ∅) w1 eq_refl Hsetup waymo_loop_reads eq_refl eq_refl)
    as (st & w' & Hmain & Hepochs & _ & Hck & Hfinal & Hnot & _).
  pose proof (Hck 40 ltac:(lia)) as H200.
  pose proof (Hnot 7 ltac:(intros (i & ? & ?); lia)) as H7.
  vm_compute in Hsetup. injection Hsetup as <- _.
  exists st, w'. split; [exact Hmain|]. split; [exact Hepochs|].
  split; [|split].
  - exact H200.
  - exact Hfinal.
  - exact H7.
Defined.

Lemma no_epochs_still_final_state_witness :
  ∃ st w',
    @main Z Z (counting_with late_start 500 1000) kitti_args (boot ∅) = (Ok st, w') ∧
    trained_epochs (trace w') = [] ∧
    disk w' = {[ "runs/out/final_state.pth" := FStateDict 0 ]}.
Proof.
  destruct (@effective_config Z Z (counting_with late_start 500 1000) kitti_args)
    as [cfg|e] eqn:Hcfg; [|vm_compute in Hcfg; discriminate].
  destruct (@setup Z Z (counting_with late_start 500 1000) cfg kitti_args (boot ∅))
    as [[su|e] w1] eqn:Hsetup.
  2: { injection Hcfg as <-. vm_compute in Hsetup. discriminate. }
  destruct (@no_epochs_still_final_state Z Z (counting_with late_start 500 1000)
              kitti_args cfg 300 200 (boot ∅) Hcfg) as [Hrun _].
  - injection Hcfg as <-. reflexivity.
  - injection Hcfg as <-. reflexivity.
  - lia.
  - destruct (Hrun su w1 Hsetup) as (_ & t & HP & Hmain).
    eexists _, _. split; [exact Hmain|]. cbn [trace disk boot].
    destruct (setup_events_no_saves t HP) as (_ & _ & Htrained).
    split.
    + by rewrite !trained_epochs_app, Htrained.
    + injection Hcfg as <-. vm_compute in Hsetup. injection Hsetup as <- _.
      reflexivity.
Defined.

(** C10 fails as stated: with [END_EPOCH = 0] and the default
    [BEGIN_EPOCH = 0] the loop has nothing to do, but the run does not reach
    it: building the scheduler evaluates the factor once, the division by
    [END_EPOCH] raises, and [final_state.pth] is never written. *)
Lemma end_epoch_zero_no_final_state :
  let cfg := with_entry "TRAIN" "END_EPOCH" (VInt 0) _C in
  let run := @main Z Z (counting_with cfg 500 1000) kitti_args (boot ∅) in
  read cfg ["TRAIN"; "END_EPOCH"] = Ok (VInt 0) ∧
  read cfg ["TRAIN"; "BEGIN_EPOCH"] = Ok (VInt 0) ∧
  run.1 = Raise ZeroDivisionError ∧
  disk run.2 = ∅ ∧
  List.filter is_save (trace run.2) = [] ∧
  trained_epochs (trace run.2) = [].
Proof. by vm_compute. Qed.

(** C9 fails as stated: in masks-only mode over an empty dataset set-up
    succeeds with the fraction list [[1.0]], the budget is 0 and the
    selection weight is [nan], not 1.0. *)
Lemma masks_only_empty_dataset_weight_nan :
  match @setup Z Z (counting_with masks_only_cfg 0 0)
          (freeze (setitem (defrost masks_only_cfg) "LOG_DIR" (VStr "runs/")))
          kitti_args (boot ∅) with
  | (Ok su, _) =>
      dataset_samples_list (su_mix su) = [0] ∧
      weights (su_mix su) = [NaN] ∧
      weights (su_mix su) ≠ [Finite 1]
  | (Raise _, _) => False
  end.
Proof. by vm_compute. Qed.

Lemma single_source_modes_witness :
  @select_datasets Z Z (counting_with masks_only_cfg 500 1000) masks_only_cfg (boot ∅)
  = (Ok ([{| ds_kind := SegmDataset2D; ds_window := None;
             ds_name := "Segmentation 2D"; ds_len := 500 |}],
         VList [SFloat (fl 1 1)]),
     {| disk := ∅;
        trace := [EvDataset {| ds_kind := SegmDataset2D; ds_window := None;
                               ds_name := "Segmentation 2D"; ds_len := 500 |}] |}) ∧
  mixer [a_dataset 500] (VList [SFloat (fl 1 1)])
  = Ok {| dataset_samples_list := [500]; num_samples := 500;
          weights := [Finite 1] |}.
Proof.
  destruct (@single_source_modes Z Z (counting_with masks_only_cfg 500 1000)
              masks_only_cfg (boot ∅) (VBool true) _ eq_refl eq_refl)
    as (Hmasks & _ & Hweight).
  split; [exact (Hmasks eq_refl)|].
  exact (Hweight (a_dataset 500) eq_refl).
Defined.

Lemma mixer_has_no_validation_witness :
  mixer [a_dataset 10; a_dataset 10] (VList (SFloat <$> [fl 1 1])) = Raise IndexError ∧
  ∃ m, mixer [a_dataset 0; a_dataset 10] (VList (SFloat <$> [fl 1 1; fl 0 1; fl 1 2]))
       = Ok m ∧
       num_samples m = 0 ∧ weights m = [NaN; NaN].
Proof.
  split.
  - apply (proj1 (proj1 (@mixer_has_no_validation Z Z counting)
                    [a_dataset 10; a_dataset 10] [fl 1 1]
                    ltac:(repeat constructor; discriminate))).
    simpl. lia.
  - destruct (proj2 (proj1 (@mixer_has_no_validation Z Z counting)
                       [a_dataset 0; a_dataset 10] [fl 1 1; fl 0 1; fl 1 2]
                       ltac:(repeat constructor; discriminate))
                ltac:(simpl; lia))
      as (m & Hm & _ & Hlen & Hzero).
    destruct Hzero as [HN Hw].
    { simpl. constructor; [by right|].
      constructor; [left; by apply Qc_is_canon|]. constructor. }
    exists m. split; [exact Hm|]. split; [exact HN|].
    vm_compute in Hm. injection Hm as <-. reflexivity.
Defined.

Lemma load_from_failures_witness :
  @main Z Z counting (resume_args "runs/out/final_state.pth")
    (boot disk_with_final_state)
  = (Raise (KeyError "state_dict"),
     {| disk := disk_with_final_state;
        trace := [EvCreateLogger (VStr "runs/"); EvSummaryWriter; EvModel] |}).
Proof.
  apply (proj2 (@load_from_failures Z Z counting
                  (resume_args "runs/out/final_state.pth") waymo_effective
                  (VStr "runs/") (VBool true) (VBool false) (VBool true)
                  "runs/out/final_state.pth" (boot disk_with_final_state)
                  eq_refl eq_refl eq_refl eq_refl eq_refl eq_refl eq_refl) 200).
  reflexivity.
Defined.

Lemma zero_val_freq_aborts_witness :
  ∃ t w',
    @main Z Z (counting_with (val_freq_cfg 0) 500 1000) kitti_args (boot ∅)
    = (Raise ZeroDivisionError, w') ∧
    disk w' = ∅ ∧ trace w' = t ++ [EvTrain 1; EvLrStep].
Proof.
  destruct (@effective_config Z Z (counting_with (val_freq_cfg 0) 500 1000) kitti_args)
    as [cfg|e] eqn:Hcfg; [|vm_compute in Hcfg; discriminate].
  destruct (@setup Z Z (counting_with (val_freq_cfg 0) 500 1000) cfg kitti_args (boot ∅))
    as [[su|e] w1] eqn:Hsetup.
  2: { injection Hcfg as <-. vm_compute in Hsetup. discriminate. }
  exists (trace w1). eexists. split.
  { apply (@zero_val_freq_aborts Z Z (counting_with (val_freq_cfg 0) 500 1000)
             kitti_args cfg su 0 200 (boot ∅) w1 Hcfg Hsetup).
    - injection Hcfg as <-. reflexivity.
    - injection Hcfg as <-. reflexivity.
    - lia.
    - injection Hcfg as <-. qc_eval. }
  split; reflexivity.
Defined.

Lemma validation_cadence_witness :
  ∃ st w',
    @main Z Z (counting_with (val_freq_cfg 70) 500 1000) kitti_args (boot ∅)
    = (Ok st, w') ∧
    validated_epochs (trace w') = [70; 140; 200].
Proof.
  destruct (@effective_config Z Z (counting_with (val_freq_cfg 70) 500 1000) kitti_args)
    as [cfg|e] eqn:Hcfg; [|vm_compute in Hcfg; discriminate].
  destruct (@setup Z Z (counting_with (val_freq_cfg 70) 500 1000) cfg kitti_args (boot ∅))
    as [[su|e] w1] eqn:Hsetup.
  2: { injection Hcfg as <-. vm_compute in Hsetup. discriminate. }
  destruct (@validation_cadence Z Z (counting_with (val_freq_cfg 70) 500 1000)
              kitti_args cfg su (VStr "") 0 70 200 (boot ∅) w1 Hcfg Hsetup)
    as (st & w' & Hmain & Hval & _).
  - injection Hcfg as <-. reflexivity.
  - injection Hcfg as <-. reflexivity.
  - injection Hcfg as <-. reflexivity.
  - lia.
  - injection Hcfg as <-. reflexivity.
  - exists st, w'. split; [exact Hmain|]. rewrite Hval. reflexivity.
Defined.

Lemma sampler_epoch_only_with_rank_witness :
  (∃ st w',
     @main Z Z distributed default_args (boot ∅) = (Ok st, w') ∧
     sampler_epochs (trace w') = py_range 1 201) ∧
  (∃ st w',
     @main Z Z counting default_args (boot ∅) = (Ok st, w') ∧
     sampler_epochs (trace w') = []).
Proof.
  split.
  - destruct (@setup Z Z distributed waymo_effective default_args (boot ∅))
      as [[su|e] w1] eqn:Hsetup; [|vm_compute in Hsetup; discriminate].
    destruct (@sampler_epoch_only_with_rank Z Z distributed default_args
                waymo_effective su (VStr "") 0 200 (boot ∅) w1
                eq_refl Hsetup waymo_loop_reads eq_refl eq_refl)
      as (st & w' & Hmain & Hsampler).
    exists st, w'. split; [exact Hmain | exact Hsampler].
  - destruct (@setup Z Z counting waymo_effective default_args (boot ∅))
      as [[su|e] w1] eqn:Hsetup; [|vm_compute in Hsetup; discriminate].
    destruct (@sampler_epoch_only_with_rank Z Z counting default_args
                waymo_effective su (VStr "") 0 200 (boot ∅) w1
                eq_refl Hsetup waymo_loop_reads eq_refl eq_refl)
      as (st & w' & Hmain & Hsampler).
    exists st, w'. split; [exact Hmain | exact Hsampler].
Defined.



Lemma completed_run_files_witness :
  ∃ st w',
    @main Z Z counting default_args (boot ∅) = (Ok st, w') ∧
    disk w' !! "runs/out/final_state.pth" = Some (FStateDict (model (learner st))) ∧
    (∃ c, disk w' !! "runs/out/epoch-10.pth" = Some (FCheckpoint c) ∧
          ck_epoch c = 10 ∧ ck_state_dict c = 10 ∧ ck_optimizer c = 10) ∧
    disk w' !! "runs/out/epoch-11.pth" = None ∧
    disk w' !! "runs/out/best.pth" = None.
Proof.
  destruct (@setup Z Z counting waymo_effective default_args (boot ∅))
    as [[su|e] w1] eqn:Hsetup; [|vm_compute in Hsetup; discriminate].
  destruct (@completed_run_files Z Z counting default_args waymo_effective su
              (VStr "") 0 200 (boot ∅) w1 eq_refl Hsetup waymo_loop_reads
              eq_refl eq_refl)
    as (st & w' & Hmain & Hck & Hfinal & Hnot & Hother).
  destruct (Hck 10 ltac:(lia) eq_refl) as (c & Hc & Hepoch & _ & Hmodel & Hopt).
  pose proof (Hnot 11 ltac:(intros [_ ?]; discriminate)) as H11.
  pose proof (Hother "runs/out/best.pth") as Hbest.
  vm_compute in Hsetup. injection Hsetup as <- _.
  exists st, w'. split; [exact Hmain|]. split; [exact Hfinal|]. split; [|split].
  - exists c. split; [exact Hc|]. split; [exact Hepoch|].
    split; [rewrite Hmodel | rewrite Hopt]; reflexivity.
  - exact H11.
  - apply Hbest; [discriminate|].
    intros k. unfold checkpoint_path, path_join, checkpoint_name. cbn [su_output_dir].
    vm_compute. discriminate.
Defined.

Lemma final_state_not_loadable_witness :
  ∃ st w',
    @main Z Z counting default_args (boot ∅) = (Ok st, w') ∧
    @initial_model Z Z counting (resume_args "runs/out/final_state.pth") w'
    = (Raise (KeyError "state_dict"), w').
Proof.
  destruct (@setup Z Z counting waymo_effective default_args (boot ∅))
    as [[su|e] w1] eqn:Hsetup; [|vm_compute in Hsetup; discriminate].
  destruct (@final_state_not_loadable Z Z counting default_args waymo_effective su
              (VStr "") 0 200 (boot ∅) w1 eq_refl Hsetup waymo_loop_reads
              eq_refl eq_refl)
    as (st & w' & Hmain & Hload).
  exists st, w'. split; [exact Hmain|]. apply Hload.
  vm_compute in Hsetup. injection Hsetup as <- _. reflexivity.
Defined.

Lemma checkpoint_round_trip_witness :
  ∃ st w',
    @main Z Z counting default_args (boot ∅) = (Ok st, w') ∧
    @initial_model Z Z counting (resume_args "runs/out/epoch-200.pth") w'
    = (Ok (model (learner st)),
       {| disk := disk w';
          trace := trace w' ++ [EvLoadStateDict "runs/out/epoch-200.pth"] |}).
Proof.
  destruct (@setup Z Z counting waymo_effective default_args (boot ∅))
    as [[su|e] w1] eqn:Hsetup; [|vm_compute in Hsetup; discriminate].
  destruct (@checkpoint_round_trip Z Z counting default_args waymo_effective su
              (VStr "") 0 200 (boot ∅) w1 eq_refl Hsetup waymo_loop_reads
              eq_refl eq_refl)
    as (st & w' & Hmain & Hload).
  exists st, w'. split; [exact Hmain|].
  destruct (Hload (resume_args "runs/out/epoch-200.pth") 200 ltac:(lia) eq_refl)
    as [Hinit Hlast].
  - vm_compute in Hsetup. injection Hsetup as <- _. reflexivity.
  - rewrite <- (Hlast eq_refl).
    vm_compute in Hsetup. injection Hsetup as Hsu _.
    rewrite Hinit. rewrite <- Hsu. reflexivity.
Defined.

End Runs.
